(** * The resilient socket client of [src/utils/socket.ts]

    A shallow embedding of the class [SocketClient]: its fields are a
    record, the browser objects it drives (the [WebSocket] instances it
    constructs, the timers of [window], the console and the subscribed
    callbacks) are a second record, and every method is a computation in
    a state-and-exception monad over the two.  The browser's event loop
    is a list of events run one after the other.

    What is taken from the platform rather than from the class:
    - [window.setInterval] and [window.setTimeout] return positive ids
      from one counter, and [clearInterval] and [clearTimeout] are the
      same operation;
    - the [WebSocket] constructor throws or not depending on its
      arguments only; [send] throws on a CONNECTING socket; [close]
      moves a CONNECTING or OPEN socket to CLOSING;
    - [JSON.parse] is any partial function on payloads;
    - a subscriber is an opaque function that returns or throws
      depending on its argument; it does not call back into the client
      while it runs.

    Layout: the data, the monad and the primitives; the class, method
    by method in the order of the source; the event loop; the
    observations and invariants the statements use; then the proofs. *)

From Stdlib Require Import ZArith String Ascii Bool Lia.
From stdpp Require Import base list strings.

(** ** Values that cross the interface *)

(** [WebSocket.CONNECTING], [OPEN], [CLOSING], [CLOSED]. *)
Inductive ReadyState := CONNECTING | OPEN | CLOSING | CLOSED.

Definition readyState_code (r : ReadyState) : Z :=
  match r with CONNECTING => 0 | OPEN => 1 | CLOSING => 2 | CLOSED => 3 end.

(** [string | ArrayBufferLike | Blob | ArrayBufferView]: what [send]
    accepts and what [MessageEvent.data] carries. *)
Inductive Payload :=
| PString (s : string)
| PArrayBuffer (bytes : list Byte.byte)
| PBlob (bytes : list Byte.byte)
| PArrayBufferView (bytes : list Byte.byte).

(** The values [JSON.parse] returns. *)
#[local] Unset Elimination Schemes.
Inductive Json :=
| JNull
| JBool (b : bool)
| JNumber (n : Z)
| JString (s : string)
| JArray (items : list Json)
| JObject (fields : list (string * Json)).
#[local] Set Elimination Schemes.

(** What a subscriber is called with: nothing (open, close), the parsed
    value or the raw [event.data] (message), the error event (error). *)
Inductive Arg :=
| NoArg
| Data (v : Json)
| RawData (p : Payload)
| ErrorEvent (e : nat).

(** Subscribers are function references; two references are the same
    member of a [Set] when they are the same function. *)
Definition Handler := nat.

Inductive Exn :=
| SyntaxError                           (* new WebSocket(...) rejected its arguments *)
| InvalidStateError                     (* WebSocket.send while CONNECTING *)
| HandlerThrew (h : Handler) (a : Arg). (* a subscriber threw *)

(** The two closures the class hands to [window.setInterval] and
    [window.setTimeout]. *)
Inductive TimerKind := HeartbeatTick | ReconnectRetry.

(** A live timer: its id, the closure it runs, whether it repeats
    ([setInterval]) or fires once ([setTimeout]), and its delay. *)
Record Timer := {
  timerId : Z;
  timerKind : TimerKind;
  timerRepeats : bool;
  timerDelay : Z }.

Inductive TimerOp :=
| SetInterval (id delay : Z)
| SetTimeout (id delay : Z)
| ClearTimer (id : Z).

(** The console lines of the class, one constructor per call site. *)
Inductive ConsoleMsg :=
| WarnAlreadyConnected       (* connect, line 40 *)
| ErrorConnectFailed (e : Exn) (* connect, line 51 *)
| WarnNotConnected           (* send, line 61 *)
| LogOpened                  (* handleOpen, line 107 *)
| LogClosed                  (* handleClose, line 125 *)
| ErrorSocket (e : nat)      (* handleError, line 136 *)
| ErrorReconnectLimit        (* reconnect, line 161 *)
| LogReconnecting (n : Z).   (* reconnect, line 166 *)

(** ** The class and its environment *)

Definition Protocols := option (string + list string)%type.

(** [interface SocketOptions]; an optional field is an [option]. *)
Record SocketOptions := {
  opt_url : string;
  opt_heartbeatInterval : option Z;
  opt_reconnectInterval : option Z;
  opt_reconnectAttempts : option Z;
  opt_protocols : Protocols }.

(** The private fields of [SocketClient], in the order of the source.
    [ws] is a reference into the environment's sockets; a [Set] of
    callbacks is the list of its members in insertion order.  Numbers
    are integers: the claims are about integral counts and timer ids. *)
Record SocketClient := {
  ws : option nat;
  url : string;
  protocols : Protocols;
  heartbeatInterval : Z;
  reconnectInterval : Z;
  reconnectAttempts : Z;
  currentReconnectAttempts : Z;
  heartbeatTimer : option Z;
  reconnectTimer : option Z;
  isManualClose : bool;
  messageHandlers : list Handler;
  openHandlers : list Handler;
  closeHandlers : list Handler;
  errorHandlers : list Handler }.

(** A [WebSocket] object: its state, whether each of its four callback
    slots holds the client's bound method, and the frames given to it. *)
Record WebSocket := {
  readyState : ReadyState;
  onopen : bool;
  onmessage : bool;
  onclose : bool;
  onerror : bool;
  sent : list Payload }.

Record World := {
  client : SocketClient;
  sockets : list WebSocket;
  timers : list Timer;          (* the live timers of [window] *)
  nextTimerId : Z;
  timerOps : list TimerOp;      (* every timer call made, oldest first *)
  console : list ConsoleMsg;
  calls : list (Handler * Arg) }. (* every subscriber call made, oldest first *)

(** What the class takes from the browser and from its callers without
    fixing it: the decoder, which arguments the [WebSocket] constructor
    rejects, and which subscribers throw on which argument.  Subscribers
    are opaque: they neither call back into the client nor touch its
    fields. *)
Record Host := {
  JSON_parse : Payload -> option Json;
  WebSocket_accepts : string -> Protocols -> bool;
  handler_throws : Handler -> Arg -> bool }.

(** *** Field updates *)

Definition set_ws (v : option nat) (c : SocketClient) : SocketClient :=
  {| ws := v; url := url c; protocols := protocols c;
     heartbeatInterval := heartbeatInterval c;
     reconnectInterval := reconnectInterval c;
     reconnectAttempts := reconnectAttempts c;
     currentReconnectAttempts := currentReconnectAttempts c;
     heartbeatTimer := heartbeatTimer c; reconnectTimer := reconnectTimer c;
     isManualClose := isManualClose c;
     messageHandlers := messageHandlers c; openHandlers := openHandlers c;
     closeHandlers := closeHandlers c; errorHandlers := errorHandlers c |}.

Definition set_currentReconnectAttempts (v : Z) (c : SocketClient) : SocketClient :=
  {| ws := ws c; url := url c; protocols := protocols c;
     heartbeatInterval := heartbeatInterval c;
     reconnectInterval := reconnectInterval c;
     reconnectAttempts := reconnectAttempts c;
     currentReconnectAttempts := v;
     heartbeatTimer := heartbeatTimer c; reconnectTimer := reconnectTimer c;
     isManualClose := isManualClose c;
     messageHandlers := messageHandlers c; openHandlers := openHandlers c;
     closeHandlers := closeHandlers c; errorHandlers := errorHandlers c |}.

Definition set_heartbeatTimer (v : option Z) (c : SocketClient) : SocketClient :=
  {| ws := ws c; url := url c; protocols := protocols c;
     heartbeatInterval := heartbeatInterval c;
     reconnectInterval := reconnectInterval c;
     reconnectAttempts := reconnectAttempts c;
     currentReconnectAttempts := currentReconnectAttempts c;
     heartbeatTimer := v; reconnectTimer := reconnectTimer c;
     isManualClose := isManualClose c;
     messageHandlers := messageHandlers c; openHandlers := openHandlers c;
     closeHandlers := closeHandlers c; errorHandlers := errorHandlers c |}.

Definition set_reconnectTimer (v : option Z) (c : SocketClient) : SocketClient :=
  {| ws := ws c; url := url c; protocols := protocols c;
     heartbeatInterval := heartbeatInterval c;
     reconnectInterval := reconnectInterval c;
     reconnectAttempts := reconnectAttempts c;
     currentReconnectAttempts := currentReconnectAttempts c;
     heartbeatTimer := heartbeatTimer c; reconnectTimer := v;
     isManualClose := isManualClose c;
     messageHandlers := messageHandlers c; openHandlers := openHandlers c;
     closeHandlers := closeHandlers c; errorHandlers := errorHandlers c |}.

Definition set_isManualClose (v : bool) (c : SocketClient) : SocketClient :=
  {| ws := ws c; url := url c; protocols := protocols c;
     heartbeatInterval := heartbeatInterval c;
     reconnectInterval := reconnectInterval c;
     reconnectAttempts := reconnectAttempts c;
     currentReconnectAttempts := currentReconnectAttempts c;
     heartbeatTimer := heartbeatTimer c; reconnectTimer := reconnectTimer c;
     isManualClose := v;
     messageHandlers := messageHandlers c; openHandlers := openHandlers c;
     closeHandlers := closeHandlers c; errorHandlers := errorHandlers c |}.

Definition set_messageHandlers (v : list Handler) (c : SocketClient) : SocketClient :=
  {| ws := ws c; url := url c; protocols := protocols c;
     heartbeatInterval := heartbeatInterval c;
     reconnectInterval := reconnectInterval c;
     reconnectAttempts := reconnectAttempts c;
     currentReconnectAttempts := currentReconnectAttempts c;
     heartbeatTimer := heartbeatTimer c; reconnectTimer := reconnectTimer c;
     isManualClose := isManualClose c;
     messageHandlers := v; openHandlers := openHandlers c;
     closeHandlers := closeHandlers c; errorHandlers := errorHandlers c |}.

Definition set_openHandlers (v : list Handler) (c : SocketClient) : SocketClient :=
  {| ws := ws c; url := url c; protocols := protocols c;
     heartbeatInterval := heartbeatInterval c;
     reconnectInterval := reconnectInterval c;
     reconnectAttempts := reconnectAttempts c;
     currentReconnectAttempts := currentReconnectAttempts c;
     heartbeatTimer := heartbeatTimer c; reconnectTimer := reconnectTimer c;
     isManualClose := isManualClose c;
     messageHandlers := messageHandlers c; openHandlers := v;
     closeHandlers := closeHandlers c; errorHandlers := errorHandlers c |}.

Definition set_closeHandlers (v : list Handler) (c : SocketClient) : SocketClient :=
  {| ws := ws c; url := url c; protocols := protocols c;
     heartbeatInterval := heartbeatInterval c;
     reconnectInterval := reconnectInterval c;
     reconnectAttempts := reconnectAttempts c;
     currentReconnectAttempts := currentReconnectAttempts c;
     heartbeatTimer := heartbeatTimer c; reconnectTimer := reconnectTimer c;
     isManualClose := isManualClose c;
     messageHandlers := messageHandlers c; openHandlers := openHandlers c;
     closeHandlers := v; errorHandlers := errorHandlers c |}.

Definition set_errorHandlers (v : list Handler) (c : SocketClient) : SocketClient :=
  {| ws := ws c; url := url c; protocols := protocols c;
     heartbeatInterval := heartbeatInterval c;
     reconnectInterval := reconnectInterval c;
     reconnectAttempts := reconnectAttempts c;
     currentReconnectAttempts := currentReconnectAttempts c;
     heartbeatTimer := heartbeatTimer c; reconnectTimer := reconnectTimer c;
     isManualClose := isManualClose c;
     messageHandlers := messageHandlers c; openHandlers := openHandlers c;
     closeHandlers := closeHandlers c; errorHandlers := v |}.

Definition with_client (c : SocketClient) (w : World) : World :=
  {| client := c; sockets := sockets w; timers := timers w;
     nextTimerId := nextTimerId w; timerOps := timerOps w;
     console := console w; calls := calls w |}.

Definition with_sockets (l : list WebSocket) (w : World) : World :=
  {| client := client w; sockets := l; timers := timers w;
     nextTimerId := nextTimerId w; timerOps := timerOps w;
     console := console w; calls := calls w |}.

Definition with_timers (l : list Timer) (n : Z) (ops : list TimerOp) (w : World) : World :=
  {| client := client w; sockets := sockets w; timers := l;
     nextTimerId := n; timerOps := ops;
     console := console w; calls := calls w |}.

Definition with_console (l : list ConsoleMsg) (w : World) : World :=
  {| client := client w; sockets := sockets w; timers := timers w;
     nextTimerId := nextTimerId w; timerOps := timerOps w;
     console := l; calls := calls w |}.

Definition with_calls (l : list (Handler * Arg)) (w : World) : World :=
  {| client := client w; sockets := sockets w; timers := timers w;
     nextTimerId := nextTimerId w; timerOps := timerOps w;
     console := console w; calls := l |}.

Definition set_readyState (r : ReadyState) (s : WebSocket) : WebSocket :=
  {| readyState := r; onopen := onopen s; onmessage := onmessage s;
     onclose := onclose s; onerror := onerror s; sent := sent s |}.

Definition set_onopen (s : WebSocket) : WebSocket :=
  {| readyState := readyState s; onopen := true; onmessage := onmessage s;
     onclose := onclose s; onerror := onerror s; sent := sent s |}.

Definition set_onmessage (s : WebSocket) : WebSocket :=
  {| readyState := readyState s; onopen := onopen s; onmessage := true;
     onclose := onclose s; onerror := onerror s; sent := sent s |}.

Definition set_onclose (s : WebSocket) : WebSocket :=
  {| readyState := readyState s; onopen := onopen s; onmessage := onmessage s;
     onclose := true; onerror := onerror s; sent := sent s |}.

Definition set_onerror (s : WebSocket) : WebSocket :=
  {| readyState := readyState s; onopen := onopen s; onmessage := onmessage s;
     onclose := onclose s; onerror := true; sent := sent s |}.

Definition push_sent (p : Payload) (s : WebSocket) : WebSocket :=
  {| readyState := readyState s; onopen := onopen s; onmessage := onmessage s;
     onclose := onclose s; onerror := onerror s; sent := sent s ++ [p] |}.

(** ** The monad of method bodies *)

(** A statement either completes with a value or throws; the fields it
    wrote before throwing stay written. *)
Inductive Result (A : Type) :=
| Return (a : A)
| Throw (e : Exn).
Arguments Return {A} a.
Arguments Throw {A} e.

Definition M (A : Type) : Type := World -> World * Result A.

Definition ret {A} (a : A) : M A := fun w => (w, Return a).

Definition bind {A B} (m : M A) (k : A -> M B) : M B :=
  fun w =>
    match m w with
    | (w', Return a) => k a w'
    | (w', Throw e) => (w', Throw e)
    end.

Definition throw {A} (e : Exn) : M A := fun w => (w, Throw e).

(** [try { body } catch (error) { handler }]. *)
Definition try_catch {A} (body : M A) (handler : Exn -> M A) : M A :=
  fun w =>
    match body w with
    | (w', Return a) => (w', Return a)
    | (w', Throw e) => handler e w'
    end.

Declare Scope js_scope.
Delimit Scope js_scope with js.
Notation "x <- m ;; k" := (bind m (fun x => k))
  (at level 100, m at next level, k at level 200, right associativity) : js_scope.
Notation "m ;; k" := (bind m (fun _ => k))
  (at level 100, k at level 200, right associativity) : js_scope.
Local Open Scope js_scope.

(** The world a statement leaves, whether it returned or threw. *)
Definition after {A} (m : M A) (w : World) : World := fst (m w).
Definition outcome {A} (m : M A) (w : World) : Result A := snd (m w).

(** ** Primitives: field access and the browser's objects *)

Definition this : M SocketClient := fun w => (w, Return (client w)).

Definition assign (f : SocketClient -> SocketClient) : M unit :=
  fun w => (with_client (f (client w)) w, Return tt).

(** [this.ws?.readyState]: [None] is [undefined]. *)
Definition ws_readyState : M (option ReadyState) :=
  fun w =>
    (w, Return match ws (client w) with
               | Some s => readyState <$> sockets w !! s
               | None => None
               end).

(** [x === WebSocket.OPEN]. *)
Definition is_OPEN (st : option ReadyState) : bool :=
  match st with
  | Some r => (readyState_code r =? readyState_code OPEN)%Z
  | None => false
  end.

(** A timer handle used as a condition: [null] and [0] are falsy. *)
Definition truthy (t : option Z) : bool :=
  match t with
  | Some id => negb (id =? 0)%Z
  | None => false
  end.

Definition console_put (msg : ConsoleMsg) : M unit :=
  fun w => (with_console (console w ++ [msg]) w, Return tt).

Definition on_socket (s : nat) (f : WebSocket -> WebSocket) : M unit :=
  fun w => (with_sockets (alter f s (sockets w)) w, Return tt).

Definition fresh_WebSocket : WebSocket :=
  {| readyState := CONNECTING; onopen := false; onmessage := false;
     onclose := false; onerror := false; sent := [] |}.

(** The same socket once [connect] has set its four callbacks. *)
Definition connected_WebSocket : WebSocket :=
  {| readyState := CONNECTING; onopen := true; onmessage := true;
     onclose := true; onerror := true; sent := [] |}.

(** [WebSocket.send]: throws while CONNECTING, transmits when OPEN,
    discards the data when CLOSING or CLOSED. *)
Definition WebSocket_send (s : nat) (data : Payload) : M unit :=
  fun w =>
    match readyState <$> sockets w !! s with
    | Some CONNECTING => (w, Throw InvalidStateError)
    | Some OPEN => on_socket s (push_sent data) w
    | _ => (w, Return tt)
    end.

(** [WebSocket.close]: starts the closing handshake unless the socket is
    already CLOSING or CLOSED. *)
Definition WebSocket_close (s : nat) : M unit :=
  on_socket s (fun sk =>
    match readyState sk with
    | CONNECTING | OPEN => set_readyState CLOSING sk
    | _ => sk
    end).

(** [window.setInterval] and [window.setTimeout] draw their ids, which
    are positive, from one counter. *)
Definition window_setInterval (cb : TimerKind) (delay : Z) : M Z :=
  fun w =>
    let id := nextTimerId w in
    (with_timers
       (timers w ++ [{| timerId := id; timerKind := cb; timerRepeats := true; timerDelay := delay |}])
       (id + 1)%Z (timerOps w ++ [SetInterval id delay]) w,
     Return id).

Definition window_setTimeout (cb : TimerKind) (delay : Z) : M Z :=
  fun w =>
    let id := nextTimerId w in
    (with_timers
       (timers w ++ [{| timerId := id; timerKind := cb; timerRepeats := false; timerDelay := delay |}])
       (id + 1)%Z (timerOps w ++ [SetTimeout id delay]) w,
     Return id).

Definition drop_timer (id : Z) (l : list Timer) : list Timer :=
  filter (fun t => timerId t <> id) l.

(** [clearInterval] and [clearTimeout] are one operation on one pool. *)
Definition clearTimer (id : Z) : M unit :=
  fun w =>
    (with_timers (drop_timer id (timers w)) (nextTimerId w)
       (timerOps w ++ [ClearTimer id]) w,
     Return tt).
Definition clearInterval := clearTimer.
Definition clearTimeout := clearTimer.

(** [Set.prototype.add], [delete] and [forEach]. *)
Definition Set_add (h : Handler) (l : list Handler) : list Handler :=
  if bool_decide (h ∈ l) then l else l ++ [h].

Definition Set_delete (h : Handler) (l : list Handler) : list Handler :=
  filter (fun x => x <> h) l.

Fixpoint forEach (hs : list Handler) (f : Handler -> M unit) : M unit :=
  match hs with
  | [] => ret tt
  | h :: rest => f h ;; forEach rest f
  end.

(** [JSON.stringify({ type: 'ping' })]: the text of the heartbeat frame,
    15 characters with its four quotation marks. *)
Definition quote : string := String (ascii_of_nat 34) EmptyString.
Definition ping_text : string :=
  "{" +:+ quote +:+ "type" +:+ quote +:+ ":" +:+ quote +:+ "ping" +:+ quote +:+ "}".

Section Methods.

Variable host : Host.

Definition new_WebSocket (u : string) (p : Protocols) : M nat :=
  fun w =>
    if WebSocket_accepts host u p
    then (with_sockets (sockets w ++ [fresh_WebSocket]) w, Return (length (sockets w)))
    else (w, Throw SyntaxError).

Definition JSON_parse_or_throw (data : Payload) : M Json :=
  match JSON_parse host data with
  | Some v => ret v
  | None => throw SyntaxError
  end.

(** Calling a subscriber: the call is recorded, then it returns or throws. *)
Definition call (a : Arg) (h : Handler) : M unit :=
  fun w =>
    let w' := with_calls (calls w ++ [(h, a)]) w in
    if handler_throws host h a then (w', Throw (HandlerThrew h a)) else (w', Return tt).

(** ** The class *)

(** [x || d] on an optional number: [undefined] and [0] give [d]. *)
Definition or_default (x : option Z) (d : Z) : Z :=
  match x with
  | Some v => if (v =? 0)%Z then d else v
  | None => d
  end.

Definition new_SocketClient (options : SocketOptions) : SocketClient :=
  {| ws := None;
     url := opt_url options;
     protocols := opt_protocols options;
     heartbeatInterval := or_default (opt_heartbeatInterval options) 30000;
     reconnectInterval := or_default (opt_reconnectInterval options) 5000;
     reconnectAttempts := or_default (opt_reconnectAttempts options) 5;
     currentReconnectAttempts := 0;
     heartbeatTimer := None;
     reconnectTimer := None;
     isManualClose := false;
     messageHandlers := [];
     openHandlers := [];
     closeHandlers := [];
     errorHandlers := [] |}.

Definition stopReconnect : M unit :=
  c <- this ;;
  match reconnectTimer c with
  | Some id =>
      if truthy (reconnectTimer c)
      then clearTimeout id ;; assign (set_reconnectTimer None)
      else ret tt
  | None => ret tt
  end.

Definition reconnect : M unit :=
  c <- this ;;
  if (reconnectAttempts c <=? currentReconnectAttempts c)%Z then
    console_put ErrorReconnectLimit
  else
    assign (fun c => set_currentReconnectAttempts (currentReconnectAttempts c + 1) c) ;;
    c <- this ;;
    console_put (LogReconnecting (currentReconnectAttempts c)) ;;
    id <- window_setTimeout ReconnectRetry (reconnectInterval c) ;;
    assign (set_reconnectTimer (Some id)).

Definition stopHeartbeat : M unit :=
  c <- this ;;
  match heartbeatTimer c with
  | Some id =>
      if truthy (heartbeatTimer c)
      then clearInterval id ;; assign (set_heartbeatTimer None)
      else ret tt
  | None => ret tt
  end.

Definition startHeartbeat : M unit :=
  stopHeartbeat ;;
  c <- this ;;
  id <- window_setInterval HeartbeatTick (heartbeatInterval c) ;;
  assign (set_heartbeatTimer (Some id)).

Definition connect : M unit :=
  st <- ws_readyState ;;
  if is_OPEN st then
    console_put WarnAlreadyConnected
  else
    try_catch
      (c <- this ;;
       s <- new_WebSocket (url c) (protocols c) ;;
       assign (set_ws (Some s)) ;;
       on_socket s set_onopen ;;
       on_socket s set_onmessage ;;
       on_socket s set_onclose ;;
       on_socket s set_onerror)
      (fun error =>
         console_put (ErrorConnectFailed error) ;;
         reconnect).

Definition send (data : Payload) : M unit :=
  st <- ws_readyState ;;
  if is_OPEN st then
    c <- this ;;
    match ws c with
    | Some s => WebSocket_send s data
    | None => ret tt
    end
  else
    console_put WarnNotConnected.

Definition close : M unit :=
  assign (set_isManualClose true) ;;
  stopHeartbeat ;;
  stopReconnect ;;
  c <- this ;;
  match ws c with
  | Some s => WebSocket_close s ;; assign (set_ws None)
  | None => ret tt
  end.

(** What [onMessage] and its siblings return: the closure that deletes
    the handler from the set it was added to. *)
Inductive Subscription :=
| MessageSub (h : Handler)
| OpenSub (h : Handler)
| CloseSub (h : Handler)
| ErrorSub (h : Handler).

Definition onMessage (handler : Handler) : M Subscription :=
  assign (fun c => set_messageHandlers (Set_add handler (messageHandlers c)) c) ;;
  ret (MessageSub handler).

Definition onOpen (handler : Handler) : M Subscription :=
  assign (fun c => set_openHandlers (Set_add handler (openHandlers c)) c) ;;
  ret (OpenSub handler).

Definition onClose (handler : Handler) : M Subscription :=
  assign (fun c => set_closeHandlers (Set_add handler (closeHandlers c)) c) ;;
  ret (CloseSub handler).

Definition onError (handler : Handler) : M Subscription :=
  assign (fun c => set_errorHandlers (Set_add handler (errorHandlers c)) c) ;;
  ret (ErrorSub handler).

(** Calling a returned closure; its value is that of [Set.delete]. *)
Definition unsubscribe (sub : Subscription) : M bool :=
  c <- this ;;
  match sub with
  | MessageSub h =>
      assign (set_messageHandlers (Set_delete h (messageHandlers c))) ;;
      ret (bool_decide (h ∈ messageHandlers c))
  | OpenSub h =>
      assign (set_openHandlers (Set_delete h (openHandlers c))) ;;
      ret (bool_decide (h ∈ openHandlers c))
  | CloseSub h =>
      assign (set_closeHandlers (Set_delete h (closeHandlers c))) ;;
      ret (bool_decide (h ∈ closeHandlers c))
  | ErrorSub h =>
      assign (set_errorHandlers (Set_delete h (errorHandlers c))) ;;
      ret (bool_decide (h ∈ errorHandlers c))
  end.

Definition getReadyState : M Z :=
  st <- ws_readyState ;;
  ret match st with
      | Some r => readyState_code r
      | None => readyState_code CLOSED
      end.

Definition handleOpen : M unit :=
  console_put LogOpened ;;
  assign (set_currentReconnectAttempts 0) ;;
  startHeartbeat ;;
  c <- this ;;
  forEach (openHandlers c) (call NoArg).

Definition handleMessage (event_data : Payload) : M unit :=
  try_catch
    (data <- JSON_parse_or_throw event_data ;;
     c <- this ;;
     forEach (messageHandlers c) (call (Data data)))
    (fun error =>
       c <- this ;;
       forEach (messageHandlers c) (call (RawData event_data))).

Definition handleClose : M unit :=
  console_put LogClosed ;;
  stopHeartbeat ;;
  c <- this ;;
  forEach (closeHandlers c) (call NoArg) ;;
  c <- this ;;
  if negb (isManualClose c) then reconnect else ret tt.

Definition handleError (error : nat) : M unit :=
  console_put (ErrorSocket error) ;;
  c <- this ;;
  forEach (errorHandlers c) (call (ErrorEvent error)).

(** The closure given to [setInterval] in [startHeartbeat]. *)
Definition heartbeatTick : M unit :=
  st <- ws_readyState ;;
  if is_OPEN st then send (PString ping_text) else ret tt.

(** The closure given to [setTimeout] in [reconnect]. *)
Definition reconnectRetry : M unit := connect.

End Methods.

(** ** The event loop *)

(** What can happen to a client, one at a time: the application calls a
    public method, a socket the client constructed fires one of its four
    events, or a live timer fires. *)
Inductive Event :=
| CallConnect
| CallSend (data : Payload)
| CallClose
| CallOnMessage (h : Handler)
| CallOnOpen (h : Handler)
| CallOnClose (h : Handler)
| CallOnError (h : Handler)
| CallUnsubscribe (sub : Subscription)
| CallGetReadyState
| SocketOpens (s : nat)
| SocketMessage (s : nat) (data : Payload)
| SocketCloses (s : nat)
| SocketError (s : nat) (e : nat)
| TimerFires (id : Z).

Definition discard {A} (m : M A) : M unit := _ <- m ;; ret tt.

(** The browser fires [open] on a CONNECTING socket, which becomes OPEN;
    [message] on an OPEN socket; [error] and [close] on a socket that is
    not CLOSED yet, [close] making it CLOSED.  The callback slot is then
    run if it is set. *)
Definition socket_event (s : nat) (enabled : ReadyState -> bool)
    (next : ReadyState -> ReadyState) (slot : WebSocket -> bool)
    (callback : M unit) : M unit :=
  fun w =>
    match sockets w !! s with
    | Some sk =>
        if enabled (readyState sk) then
          (on_socket s (set_readyState (next (readyState sk))) ;;
           if slot sk then callback else ret tt) w
        else (w, Return tt)
    | None => (w, Return tt)
    end.

Definition is_CONNECTING (r : ReadyState) : bool :=
  match r with CONNECTING => true | _ => false end.
Definition is_open (r : ReadyState) : bool :=
  match r with OPEN => true | _ => false end.
Definition not_CLOSED (r : ReadyState) : bool :=
  match r with CLOSED => false | _ => true end.

(** A timer set by [setTimeout] leaves the live timers when it fires. *)
Definition spend (id : Z) : M unit :=
  fun w =>
    (with_timers (drop_timer id (timers w)) (nextTimerId w) (timerOps w) w,
     Return tt).

(** A live timer runs its closure; one set by [setTimeout] is spent
    first. *)
Definition timer_event (host : Host) (id : Z) : M unit :=
  fun w =>
    match find (fun t => (timerId t =? id)%Z) (timers w) with
    | Some t =>
        ((if timerRepeats t then ret tt else spend id) ;;
         match timerKind t with
         | HeartbeatTick => heartbeatTick
         | ReconnectRetry => reconnectRetry host
         end) w
    | None => (w, Return tt)
    end.

Definition dispatch (host : Host) (e : Event) : M unit :=
  match e with
  | CallConnect => connect host
  | CallSend data => send data
  | CallClose => close
  | CallOnMessage h => discard (onMessage h)
  | CallOnOpen h => discard (onOpen h)
  | CallOnClose h => discard (onClose h)
  | CallOnError h => discard (onError h)
  | CallUnsubscribe sub => discard (unsubscribe sub)
  | CallGetReadyState => discard getReadyState
  | SocketOpens s =>
      socket_event s is_CONNECTING (fun _ => OPEN) onopen (handleOpen host)
  | SocketMessage s data =>
      socket_event s is_open (fun r => r) onmessage (handleMessage host data)
  | SocketCloses s =>
      socket_event s not_CLOSED (fun _ => CLOSED) onclose (handleClose host)
  | SocketError s e =>
      socket_event s not_CLOSED (fun r => r) onerror (handleError host e)
  | TimerFires id => timer_event host id
  end.

(** An exception that leaves a callback or a public method ends that
    turn of the loop; the fields written before it stay written. *)
Fixpoint exec (host : Host) (evs : list Event) (w : World) : World :=
  match evs with
  | [] => w
  | e :: rest => exec host rest (after (dispatch host e) w)
  end.

(** The page right after [new SocketClient(options)]: no socket, no
    timer, nothing printed, no subscriber called. *)
Definition boot (options : SocketOptions) : World :=
  {| client := new_SocketClient options;
     sockets := [];
     timers := [];
     nextTimerId := 1;
     timerOps := [];
     console := [];
     calls := [] |}.

(** ** A concrete page, for the examples *)

(** [JSON.parse] on the few texts the examples use: the three literal
    names and the heartbeat frame decode, [hello] and binary data do
    not. *)
Definition JSON_parse_literals (data : Payload) : option Json :=
  match data with
  | PString s =>
      if String.eqb s "true" then Some (JBool true)
      else if String.eqb s "false" then Some (JBool false)
      else if String.eqb s "null" then Some JNull
      else if String.eqb s ping_text then Some (JObject [("type", JString "ping")])
      else None
  | _ => None
  end.

(** Subscriber 7 always throws; subscriber 9 throws when it is given a
    decoded value; every other subscriber returns. *)
Definition throws_7_9 (h : Handler) (a : Arg) : bool :=
  match a with
  | Data _ => Nat.eqb h 7 || Nat.eqb h 9
  | _ => Nat.eqb h 7
  end.

Definition page : Host :=
  {| JSON_parse := JSON_parse_literals;
     WebSocket_accepts := fun _ _ => true;
     handler_throws := throws_7_9 |}.

Definition options_of (attempts : option Z) : SocketOptions :=
  {| opt_url := "wss://example.test/ws";
     opt_heartbeatInterval := Some 30000%Z;
     opt_reconnectInterval := Some 5000%Z;
     opt_reconnectAttempts := attempts;
     opt_protocols := None |}.

(** ** Observations and invariants *)

(** How many times [window.setTimeout] was called.  The class calls it
    in [reconnect] only, so this counts the reconnect attempts scheduled
    so far. *)
Definition is_SetTimeout (op : TimerOp) : bool :=
  match op with SetTimeout _ _ => true | _ => false end.

Definition scheduled (w : World) : nat :=
  length (List.filter is_SetTimeout (timerOps w)).

(** How many frames the sockets of the page were given. *)
Fixpoint frames_of (l : list WebSocket) : nat :=
  match l with
  | [] => 0
  | sk :: rest => length (sent sk) + frames_of rest
  end.

Definition frames (w : World) : nat := frames_of (sockets w).

(** The socket [this.ws] refers to, when it is OPEN. *)
Definition transport_open (w : World) : option nat :=
  match ws (client w) with
  | Some s =>
      match sockets w !! s with
      | Some sk => if is_open (readyState sk) then Some s else None
      | None => None
      end
  | None => None
  end.

Definition is_SocketOpens (e : Event) : bool :=
  match e with SocketOpens _ => true | _ => false end.

Definition is_CallSend (e : Event) : bool :=
  match e with CallSend _ => true | _ => false end.

(** No socket opens during [evs]. *)
Definition no_open (evs : list Event) : bool :=
  forallb (fun e => negb (is_SocketOpens e)) evs.

(** No socket opens and the application sends nothing during [evs]. *)
Definition quiet (evs : list Event) : bool :=
  forallb (fun e => negb (is_SocketOpens e) && negb (is_CallSend e)) evs.

(** The close event of socket [s] can fire: the socket exists and is
    not CLOSED yet. *)
Definition can_close (w : World) (s : nat) : bool :=
  match sockets w !! s with
  | Some sk => not_CLOSED (readyState sk)
  | None => false
  end.

(** The first member of [hs], in insertion order, that throws on [a],
    with its position. *)
Definition first_thrower (host : Host) (a : Arg) (hs : list Handler)
  : option (nat * Handler) :=
  list_find (fun h => Is_true (handler_throws host h a)) hs.

(** The members of [hs] up to and including the first that throws. *)
Definition called (host : Host) (a : Arg) (hs : list Handler) : list Handler :=
  match first_thrower host a hs with
  | Some (i, _) => take (S i) hs
  | None => hs
  end.

Definition thrown (host : Host) (a : Arg) (hs : list Handler) : Result unit :=
  match first_thrower host a hs with
  | Some (_, h) => Throw (HandlerThrew h a)
  | None => Return tt
  end.

Definition is_heartbeat (t : Timer) : bool :=
  match timerKind t with HeartbeatTick => true | ReconnectRetry => false end.

Definition live_heartbeats (w : World) : list Timer :=
  List.filter is_heartbeat (timers w).

Definition bound (sk : WebSocket) : bool :=
  onopen sk && onmessage sk && onclose sk && onerror sk.

(** What holds of every page the event loop can reach: timer ids are
    positive, below the counter and distinct; a live heartbeat timer is
    the one [heartbeatTimer] names, and that handle is not 0; every
    socket carries the client's four callbacks; and a client that holds
    a socket was constructed with arguments the [WebSocket] constructor
    accepts. *)
Record wf (host : Host) (w : World) : Prop := {
  wf_next : (0 < nextTimerId w)%Z;
  wf_ids : Forall (fun t => (0 < timerId t < nextTimerId w)%Z) (timers w);
  wf_nodup : NoDup (timerId <$> timers w);
  wf_heartbeat :
    Forall (fun t => is_heartbeat t = true ->
                     heartbeatTimer (client w) = Some (timerId t)) (timers w);
  wf_handle : forall id, heartbeatTimer (client w) = Some id -> (0 < id)%Z;
  wf_bound : Forall (fun sk => bound sk = true) (sockets w);
  wf_ws : forall s, ws (client w) = Some s ->
          WebSocket_accepts host (url (client w)) (protocols (client w)) = true }.

(** The heartbeat is off: no handle is held and no heartbeat timer is
    live. *)
Definition heartbeat_off (w : World) : Prop :=
  heartbeatTimer (client w) = None /\ live_heartbeats w = [].

(** [m] keeps [P], whether it returns or throws. *)
Definition preserves {A} (P : World -> Prop) (m : M A) : Prop :=
  forall w, P w -> P (after m w).

(** The budget of [reconnect]: the attempts scheduled so far plus those
    the counter still allows never exceed [k], the ceiling stays [N],
    and attempts are never unscheduled. *)
Definition within_budget (N : Z) (n k : nat) (w : World) : Prop :=
  reconnectAttempts (client w) = N /\
  n <= scheduled w /\
  scheduled w + Z.to_nat (N - currentReconnectAttempts (client w)) <= k.

(** The client was closed by hand. *)
Definition closed_manually (w : World) : Prop :=
  isManualClose (client w) = true.

(** The client was closed by hand and [n] attempts were scheduled. *)
Definition closed_by_hand (n : nat) (w : World) : Prop :=
  isManualClose (client w) = true /\ scheduled w = n.

(** The sockets were given [n] frames. *)
Definition frames_are (n : nat) (w : World) : Prop := frames w = n.

(** The heartbeat is off and the sockets were given [n] frames. *)
Definition silent (n : nat) (w : World) : Prop :=
  heartbeat_off w /\ frames w = n.

(** The scenario of the specification: the socket fails to open three
    times in a row, each retry being the previous reconnect timer. *)
Definition failing_thrice : list Event :=
  [CallConnect; SocketCloses 0; TimerFires 1; SocketCloses 1;
   TimerFires 2; SocketCloses 2].

(** A page whose socket is open and has had one heartbeat, with two
    well-behaved message-subscribers. *)
Definition open_page : World :=
  exec page [CallOnMessage 1; CallOnMessage 2; CallConnect; SocketOpens 0; TimerFires 1]
    (boot (options_of (Some 5%Z))).

(** What may follow the close of that socket without any socket opening
    and without the application sending: timers fire, the retry
    connects, that socket fails, the application connects by hand. *)
Definition aftermath : list Event :=
  [TimerFires 1; TimerFires 2; SocketError 1 0; SocketCloses 1; TimerFires 1;
   CallConnect; CallGetReadyState; TimerFires 3].

(** ** Further observations *)

(** The four events a socket fires, as opposed to the calls of the
    application and the timers. *)
Definition is_socket_event (e : Event) : bool :=
  match e with
  | SocketOpens _ | SocketMessage _ _ | SocketCloses _ | SocketError _ _ => true
  | _ => false
  end.

(** The sets whose members can be called with [a]: open- and
    close-subscribers are both called with no argument. *)
Definition subscribed_for (a : Arg) (c : SocketClient) : list Handler :=
  match a with
  | NoArg => openHandlers c ++ closeHandlers c
  | Data _ | RawData _ => messageHandlers c
  | ErrorEvent _ => errorHandlers c
  end.

(** The calls one [forEach] over [hs] makes with [a]. *)
Definition deliver (host : Host) (a : Arg) (hs : list Handler) : list (Handler * Arg) :=
  (fun h => (h, a)) <$> called host a hs.

(** Socket [s] exists, is in a state where the event can fire, and has
    the callback slot set. *)
Definition fires (w : World) (s : nat) (enabled : ReadyState -> bool)
    (slot : WebSocket -> bool) : bool :=
  match sockets w !! s with
  | Some sk => enabled (readyState sk) && slot sk
  | None => false
  end.

(** The subscriber calls an event makes, in order, as a function of the
    state it starts in. *)
Definition deliveries (host : Host) (e : Event) (w : World) : list (Handler * Arg) :=
  let c := client w in
  match e with
  | SocketOpens s =>
      if fires w s is_CONNECTING onopen
      then deliver host NoArg (openHandlers c) else []
  | SocketCloses s =>
      if fires w s not_CLOSED onclose
      then deliver host NoArg (closeHandlers c) else []
  | SocketError s err =>
      if fires w s not_CLOSED onerror
      then deliver host (ErrorEvent err) (errorHandlers c) else []
  | SocketMessage s data =>
      if fires w s is_open onmessage then
        match JSON_parse host data with
        | Some v =>
            deliver host (Data v) (messageHandlers c) ++
            match thrown host (Data v) (messageHandlers c) with
            | Throw _ => deliver host (RawData data) (messageHandlers c)
            | Return _ => []
            end
        | None => deliver host (RawData data) (messageHandlers c)
        end
      else []
  | _ => []
  end.

(** Event [e] puts [h] into a set whose members are called with [a]. *)
Definition registers (a : Arg) (h : Handler) (e : Event) : bool :=
  match e, a with
  | CallOnMessage h', (Data _ | RawData _) => Nat.eqb h' h
  | (CallOnOpen h' | CallOnClose h'), NoArg => Nat.eqb h' h
  | CallOnError h', ErrorEvent _ => Nat.eqb h' h
  | _, _ => false
  end.

(** [a] and [b] are arguments of the same kind of event: none, a
    message (decoded or raw), an error. *)
Definition same_channel (a b : Arg) : bool :=
  match a, b with
  | NoArg, NoArg => true
  | (Data _ | RawData _), (Data _ | RawData _) => true
  | ErrorEvent _, ErrorEvent _ => true
  | _, _ => false
  end.

Definition is_call_to (h : Handler) (a : Arg) (x : Handler * Arg) : bool :=
  Nat.eqb (fst x) h && same_channel (snd x) a.

(** How often [h] was called with an argument of the kind of [a]. *)
Definition times_called (h : Handler) (a : Arg) (w : World) : nat :=
  length (List.filter (is_call_to h a) (calls w)).

(** [m] returns in every state. *)
Definition returns {A} (m : M A) : Prop :=
  forall w, exists a, outcome m w = Return a.

(** The five fields the constructor takes from its options are those of [c0]. *)
Definition same_config (c0 : SocketClient) (w : World) : Prop :=
  url (client w) = url c0 /\
  protocols (client w) = protocols c0 /\
  heartbeatInterval (client w) = heartbeatInterval c0 /\
  reconnectInterval (client w) = reconnectInterval c0 /\
  reconnectAttempts (client w) = reconnectAttempts c0.

(** The attempt counter is between 0 and the ceiling. *)
Definition counter_in_range (w : World) : Prop :=
  (0 <= currentReconnectAttempts (client w)
     <= Z.max 0 (reconnectAttempts (client w)))%Z.

(** A heartbeat timer repeats at [heartbeatInterval]; a reconnect timer
    fires once after [reconnectInterval]. *)
Definition timer_shaped (c : SocketClient) (t : Timer) : Prop :=
  match timerKind t with
  | HeartbeatTick => timerRepeats t = true /\ timerDelay t = heartbeatInterval c
  | ReconnectRetry => timerRepeats t = false /\ timerDelay t = reconnectInterval c
  end.

Definition timers_shaped (w : World) : Prop :=
  Forall (timer_shaped (client w)) (timers w).

(** The reconnect handle, when set, is a positive id. *)
Definition reconnect_handle_set (w : World) : Prop :=
  (0 < nextTimerId w)%Z /\
  forall id, reconnectTimer (client w) = Some id -> (0 < id)%Z.

(** The client has never constructed a socket. *)
Definition no_transport (w : World) : Prop :=
  sockets w = [] /\ ws (client w) = None.

(** What [close()] does to a socket: [WebSocket.close]. *)
Definition closing (sk : WebSocket) : WebSocket :=
  match readyState sk with
  | CONNECTING | OPEN => set_readyState CLOSING sk
  | _ => sk
  end.

(** The timer [id] is live and runs the heartbeat. *)
Definition heartbeat_fires (w : World) (id : Z) : bool :=
  match find (fun t => (timerId t =? id)%Z) (timers w) with
  | Some t => is_heartbeat t
  | None => false
  end.

(** The frames of the sockets are the lists [l], followed by sockets
    that were given none. *)
Definition log_extends (l : list (list Payload)) (w : World) : Prop :=
  exists k, sent <$> sockets w = l ++ replicate k [].

(** A page whose [WebSocket] constructor rejects every endpoint. *)
Definition blocked : Host :=
  {| JSON_parse := JSON_parse_literals;
     WebSocket_accepts := fun _ _ => false;
     handler_throws := throws_7_9 |}.

(** The function a subscription stands for, the set it was added to,
    and the call that returned it. *)
Definition sub_handler (sub : Subscription) : Handler :=
  match sub with
  | MessageSub h | OpenSub h | CloseSub h | ErrorSub h => h
  end.

Definition sub_set (sub : Subscription) (c : SocketClient) : list Handler :=
  match sub with
  | MessageSub _ => messageHandlers c
  | OpenSub _ => openHandlers c
  | CloseSub _ => closeHandlers c
  | ErrorSub _ => errorHandlers c
  end.

Definition register (sub : Subscription) : M Subscription :=
  match sub with
  | MessageSub h => onMessage h
  | OpenSub h => onOpen h
  | CloseSub h => onClose h
  | ErrorSub h => onError h
  end.

(** Whatever [m] throws is what a subscriber threw. *)
Definition subscriber_exception (host : Host) (ex : Exn) : Prop :=
  exists h a, ex = HandlerThrew h a /\ handler_throws host h a = true.

Definition throws_only_subscribers (host : Host) {A} (m : M A) : Prop :=
  forall w, match outcome m w with
            | Return _ => True
            | Throw ex => subscriber_exception host ex
            end.

(** The client has no socket and the configuration of [c0]. *)
Definition stranded (c0 : SocketClient) (w : World) : Prop :=
  no_transport w /\ same_config c0 w.

(** The client was closed by hand with [n] attempts scheduled, and has
    the configuration of [c0]. *)
Definition parked (c0 : SocketClient) (n : nat) (w : World) : Prop :=
  closed_by_hand n w /\ same_config c0 w.

(** * Proofs *)

(** ** Running a statement *)

Lemma after_bind {A B} (m : M A) (k : A -> M B) (w : World) :
  after (bind m k) w =
  match outcome m w with
  | Return a => after (k a) (after m w)
  | Throw _ => after m w
  end.
Proof.
  unfold after, outcome, bind. destruct (m w) as [w' [a|e]]; reflexivity.
Qed.

Lemma with_calls_same (w : World) : with_calls (calls w) w = w.
Proof. destruct w; reflexivity. Qed.

(** ** Delivery to a set of subscribers *)

Lemma first_thrower_cons (host : Host) (a : Arg) (h : Handler) (rest : list Handler) :
  first_thrower host a (h :: rest) =
  if handler_throws host h a then Some (0, h)
  else prod_map S id <$> first_thrower host a rest.
Proof.
  unfold first_thrower. simpl.
  destruct (handler_throws host h a); simpl; reflexivity.
Qed.

Lemma called_cons (host : Host) (a : Arg) (h : Handler) (rest : list Handler) :
  called host a (h :: rest) =
  h :: (if handler_throws host h a then [] else called host a rest).
Proof.
  unfold called. rewrite first_thrower_cons.
  destruct (handler_throws host h a); [reflexivity|].
  destruct (first_thrower host a rest) as [[i x]|]; reflexivity.
Qed.

Lemma thrown_cons (host : Host) (a : Arg) (h : Handler) (rest : list Handler) :
  thrown host a (h :: rest) =
  if handler_throws host h a then Throw (HandlerThrew h a) else thrown host a rest.
Proof.
  unfold thrown. rewrite first_thrower_cons.
  destruct (handler_throws host h a); [reflexivity|].
  destruct (first_thrower host a rest) as [[i x]|]; reflexivity.
Qed.

(** [forEach] calls the members in insertion order and stops at the
    first that throws; nothing but the record of calls changes. *)
Lemma forEach_call (host : Host) (a : Arg) (hs : list Handler) (w : World) :
  forEach hs (call host a) w =
  (with_calls (calls w ++ ((fun h => (h, a)) <$> called host a hs)) w,
   thrown host a hs).
Proof.
  revert w. induction hs as [|h rest IH]; intros w.
  - simpl. unfold ret, called, thrown. simpl.
    rewrite app_nil_r, with_calls_same. reflexivity.
  - rewrite called_cons, thrown_cons. simpl. unfold bind, call at 1.
    destruct (handler_throws host h a).
    + reflexivity.
    + rewrite IH. simpl. rewrite <- app_assoc. reflexivity.
Qed.

Lemma first_thrower_none (host : Host) (a : Arg) (hs : list Handler) :
  Forall (fun h => handler_throws host h a = false) hs ->
  first_thrower host a hs = None.
Proof.
  induction 1 as [|h rest Hh _ IH]; [reflexivity|].
  rewrite first_thrower_cons, Hh, IH. reflexivity.
Qed.

(** ** [send] *)

Lemma send_result (w : World) (data : Payload) :
  send data w =
  (match transport_open w with
   | Some s => with_sockets (alter (push_sent data) s (sockets w)) w
   | None => with_console (console w ++ [WarnNotConnected]) w
   end, Return tt).
Proof.
  unfold send, transport_open, bind, ws_readyState, this,
    WebSocket_send, on_socket, console_put, is_OPEN.
  destruct (ws (client w)) as [s|] eqn:Hws; simpl; [|reflexivity].
  destruct (sockets w !! s) as [sk|] eqn:Hsk; simpl; [|reflexivity].
  destruct (readyState sk) eqn:Hst; simpl; rewrite ?Hws, ?Hsk; simpl;
    rewrite ?Hst; reflexivity.
Qed.

Lemma alter_insert {A} (f : A -> A) (i : nat) (l : list A) (x : A) :
  l !! i = Some x -> alter f i l = <[i := f x]> l.
Proof.
  revert i. induction l as [|y l IH]; intros [|i] Hi; cbn in *;
    try discriminate Hi.
  - injection Hi as ->. reflexivity.
  - f_equal. apply IH, Hi.
Qed.

(** C9.  For every payload and every state of the page, [send] returns
    without throwing.  When [this.ws] names a socket that is OPEN, the
    only change is to that socket, whose frames are now the frames it
    had followed by the payload as it was given; in every other state
    the only change is the warning added to the console: every socket
    and every field of the client is as before, so the payload is kept
    nowhere. *)
Theorem send_forwards_iff_open (w : World) (data : Payload) :
  let dropped :=
    {| client := client w; sockets := sockets w; timers := timers w;
       nextTimerId := nextTimerId w; timerOps := timerOps w;
       console := console w ++ [WarnNotConnected]; calls := calls w |} in
  outcome (send data) w = Return tt /\
  after (send data) w =
    match ws (client w) with
    | Some s =>
        match sockets w !! s with
        | Some sk =>
            match readyState sk with
            | OPEN =>
                {| client := client w;
                   sockets :=
                     <[s := {| readyState := readyState sk;
                               onopen := onopen sk; onmessage := onmessage sk;
                               onclose := onclose sk; onerror := onerror sk;
                               sent := sent sk ++ [data] |}]> (sockets w);
                   timers := timers w; nextTimerId := nextTimerId w;
                   timerOps := timerOps w; console := console w;
                   calls := calls w |}
            | _ => dropped
            end
        | None => dropped
        end
    | None => dropped
    end.
Proof.
  intros dropped. subst dropped. unfold outcome, after. rewrite send_result.
  split; [reflexivity|]. unfold transport_open. cbn.
  destruct (ws (client w)) as [s|]; [|reflexivity].
  destruct (sockets w !! s) as [sk|] eqn:Hsk; [|reflexivity].
  destruct (readyState sk) eqn:Hst; try reflexivity. cbn.
  rewrite (alter_insert _ _ _ _ Hsk). unfold push_sent, with_sockets.
  rewrite Hst. reflexivity.
Qed.

(** ** [handleOpen] *)

Lemma handleOpen_delivery (host : Host) (w : World) :
  exists w1,
    handleOpen host w = forEach (openHandlers (client w)) (call host NoArg) w1 /\
    calls w1 = calls w /\
    currentReconnectAttempts (client w1) = 0%Z.
Proof.
  unfold handleOpen, startHeartbeat, stopHeartbeat, bind, this, assign,
    console_put, window_setInterval, clearInterval, clearTimer, truthy, ret.
  simpl.
  destruct (heartbeatTimer (client w)) as [id|]; simpl;
    [destruct (id =? 0)%Z; simpl|]; eexists; repeat split; reflexivity.
Qed.

(** C3, as the code has it.  On the open event the open-subscribers are
    called in registration order with no guard around a call: when none
    throws, each is called once; otherwise the calls stop with the first
    subscriber that throws, those registered after it are not called,
    and its exception leaves [handleOpen]. *)
Theorem handleOpen_stops_at_first_throw (host : Host) (w : World) :
  let hs := openHandlers (client w) in
  let w' := after (handleOpen host) w in
  match first_thrower host NoArg hs with
  | Some (i, h) =>
      calls w' = calls w ++ ((fun x => (x, NoArg)) <$> take (S i) hs) /\
      outcome (handleOpen host) w = Throw (HandlerThrew h NoArg)
  | None =>
      calls w' = calls w ++ ((fun x => (x, NoArg)) <$> hs) /\
      outcome (handleOpen host) w = Return tt
  end.
Proof.
  intros hs w'. subst hs w'. unfold after, outcome.
  destruct (handleOpen_delivery host w) as (w1 & -> & <- & _).
  rewrite forEach_call. unfold called, thrown. simpl.
  destruct (first_thrower host NoArg (openHandlers (client w))) as [[i h]|];
    split; reflexivity.
Qed.

(** ** [handleMessage] *)

(** C7, as the code has it.  When no message-subscriber throws on the
    value being delivered, every message-subscriber is called once, in
    registration order, with the decoded value if [JSON.parse] accepts
    the payload and with the payload itself if it does not; nothing else
    changes and [handleMessage] returns: the decoding error is not
    passed on. *)
Theorem handleMessage_parse_or_raw (host : Host) (w : World) (event_data : Payload) :
  let value :=
    match JSON_parse host event_data with
    | Some v => Data v
    | None => RawData event_data
    end in
  Forall (fun h => handler_throws host h value = false) (messageHandlers (client w)) ->
  handleMessage host event_data w =
  (with_calls (calls w ++ ((fun h => (h, value)) <$> messageHandlers (client w))) w,
   Return tt).
Proof.
  intros value Hquiet. subst value.
  unfold handleMessage, try_catch, bind, JSON_parse_or_throw, this.
  destruct (JSON_parse host event_data) as [v|]; simpl;
    rewrite forEach_call; unfold called, thrown;
    rewrite (first_thrower_none _ _ _ Hquiet); reflexivity.
Qed.

(** ** Invariants of statements *)

Section Preserves.

Context (P : World -> Prop).

Lemma preserves_ret {A} (a : A) : preserves P (ret a).
Proof. intros w H. exact H. Qed.

Lemma preserves_throw {A} (e : Exn) : preserves P (@throw A e).
Proof. intros w H. exact H. Qed.

Lemma preserves_this : preserves P this.
Proof. intros w H. exact H. Qed.

Lemma preserves_ws_readyState : preserves P ws_readyState.
Proof. intros w H. exact H. Qed.

Lemma preserves_JSON_parse (host : Host) (data : Payload) :
  preserves P (JSON_parse_or_throw host data).
Proof.
  intros w H. unfold after, JSON_parse_or_throw.
  destruct (JSON_parse host data); exact H.
Qed.

Lemma preserves_bind {A B} (m : M A) (k : A -> M B) :
  preserves P m -> (forall a, preserves P (k a)) -> preserves P (bind m k).
Proof.
  intros Hm Hk w H. rewrite after_bind.
  destruct (outcome m w); [apply Hk|]; apply Hm, H.
Qed.

(** A continuation of [this] may rely on the fields it was given being
    those of the state it runs in. *)
Lemma preserves_bind_this {B} (k : SocketClient -> M B) :
  (forall w, P w -> P (after (k (client w)) w)) -> preserves P (bind this k).
Proof. intros Hk w H. apply Hk, H. Qed.

Lemma preserves_try_catch {A} (body : M A) (handler : Exn -> M A) :
  preserves P body -> (forall e, preserves P (handler e)) ->
  preserves P (try_catch body handler).
Proof.
  intros Hb Hh w H. specialize (Hb w H). unfold after, try_catch in *.
  destruct (body w) as [w' [a|e]]; simpl in *; [exact Hb|].
  apply Hh, Hb.
Qed.

Lemma preserves_forEach (hs : list Handler) (f : Handler -> M unit) :
  (forall h, preserves P (f h)) -> preserves P (forEach hs f).
Proof.
  intros Hf. induction hs as [|h rest IH]; simpl.
  - apply preserves_ret.
  - apply preserves_bind; [apply Hf | intros _; exact IH].
Qed.

Lemma preserves_socket_event (s : nat) (enabled : ReadyState -> bool)
    (next : ReadyState -> ReadyState) (slot : WebSocket -> bool) (callback : M unit) :
  (forall r, preserves P (on_socket s (set_readyState r))) ->
  preserves P callback ->
  preserves P (socket_event s enabled next slot callback).
Proof.
  intros Hs Hc w H. unfold after, socket_event.
  destruct (sockets w !! s) as [sk|]; [|exact H].
  destruct (enabled (readyState sk)); [|exact H].
  apply (preserves_bind (on_socket s (set_readyState (next (readyState sk))))
           (fun _ => if slot sk then callback else ret tt)); [apply Hs| |exact H].
  intros _. destruct (slot sk); [exact Hc | apply preserves_ret].
Qed.

Lemma preserves_timer_event (host : Host) (id : Z) :
  preserves P (spend id) ->
  preserves P heartbeatTick ->
  preserves P (connect host) ->
  preserves P (timer_event host id).
Proof.
  intros Hs Ht Hc w H. unfold after, timer_event.
  destruct (find _ (timers w)) as [t|]; [|exact H].
  apply (preserves_bind (if timerRepeats t then ret tt else spend id)
           (fun _ => match timerKind t with
                     | HeartbeatTick => heartbeatTick
                     | ReconnectRetry => reconnectRetry host
                     end)); [| |exact H].
  - destruct (timerRepeats t); [apply preserves_ret | exact Hs].
  - intros _. destruct (timerKind t); [exact Ht | exact Hc].
Qed.

End Preserves.

(** Decomposes a statement into its primitives; [leaf] settles those. *)
Ltac pres leaf :=
  repeat (intros;
    lazymatch goal with
    | |- preserves _ (bind _ _) => apply preserves_bind
    | |- preserves _ (try_catch _ _) => apply preserves_try_catch
    | |- preserves _ (ret _) => apply preserves_ret
    | |- preserves _ (throw _) => apply preserves_throw
    | |- preserves _ this => apply preserves_this
    | |- preserves _ ws_readyState => apply preserves_ws_readyState
    | |- preserves _ (JSON_parse_or_throw _ _) => apply preserves_JSON_parse
    | |- preserves _ (forEach _ _) => apply preserves_forEach
    | |- preserves _ (socket_event _ _ _ _ _) => apply preserves_socket_event
    | |- preserves _ (timer_event _ _) => apply preserves_timer_event
    | |- preserves _ (match ?x with _ => _ end) => destruct x
    | |- preserves _ _ => leaf
    end).

(** Runs a primitive on a state and exposes the fields of the result. *)
Ltac run_primitive :=
  unfold after, assign, console_put, on_socket, WebSocket_send, WebSocket_close,
    window_setInterval, window_setTimeout, clearInterval, clearTimeout,
    clearTimer, new_WebSocket, JSON_parse_or_throw, call, spend, ret, throw;
  cbn;
  repeat (case_match; cbn).

(** ** [isManualClose] is never cleared *)

Ltac leaf_manual :=
  let w := fresh "w" in let H := fresh "H" in
  intros w H; unfold closed_manually in *; run_primitive;
  first [exact H | reflexivity].

Lemma reconnect_keeps_manual : preserves closed_manually reconnect.
Proof. unfold reconnect. pres ltac:(leaf_manual). Qed.

Lemma connect_keeps_manual (host : Host) : preserves closed_manually (connect host).
Proof.
  unfold connect.
  pres ltac:(first [apply reconnect_keeps_manual | leaf_manual]).
Qed.

Lemma heartbeatTick_keeps_manual : preserves closed_manually heartbeatTick.
Proof. unfold heartbeatTick, send. pres ltac:(leaf_manual). Qed.

Lemma dispatch_keeps_manual (host : Host) (e : Event) :
  preserves closed_manually (dispatch host e).
Proof.
  destruct e; unfold dispatch, discard, send, close, onMessage, onOpen, onClose,
    onError, unsubscribe, getReadyState, handleOpen, handleMessage,
    handleClose, handleError, heartbeatTick, send, startHeartbeat, stopHeartbeat,
    stopReconnect.
  all: pres ltac:(first [apply reconnect_keeps_manual
                        | apply connect_keeps_manual
                        | apply heartbeatTick_keeps_manual | leaf_manual]).
Qed.

Lemma exec_keeps_manual (host : Host) (evs : list Event) (w : World) :
  closed_manually w -> closed_manually (exec host evs w).
Proof.
  revert w. induction evs as [|e rest IH]; intros w H; simpl; [exact H|].
  apply IH, dispatch_keeps_manual, H.
Qed.

Lemma close_sets_manual (w : World) : closed_manually (after close w).
Proof.
  unfold close. rewrite after_bind. simpl.
  assert (closed_manually (after (assign (set_isManualClose true)) w)) as H
    by reflexivity.
  revert H. generalize (after (assign (set_isManualClose true)) w). clear w.
  change (preserves closed_manually
            (stopHeartbeat ;; stopReconnect ;; c <- this ;;
             match ws c with
             | Some s => WebSocket_close s ;; assign (set_ws None)
             | None => ret tt
             end)).
  unfold stopHeartbeat, stopReconnect. pres ltac:(leaf_manual).
Qed.

(** A close event on a client closed by hand schedules nothing. *)
Lemma handleClose_closed_by_hand (host : Host) (n : nat) :
  preserves (closed_by_hand n) (handleClose host).
Proof.
  unfold handleClose.
  apply preserves_bind; [intros w H; exact H|]. intros _.
  apply preserves_bind.
  { unfold stopHeartbeat.
    pres ltac:(let w := fresh "w" in let H := fresh "H" in
               intros w H; destruct H; unfold closed_by_hand, scheduled;
               run_primitive; rewrite ?List.filter_app, ?app_nil_r;
               split; assumption). }
  intros _. apply preserves_bind_this. intros w H.
  rewrite after_bind. unfold outcome, after. rewrite forEach_call. simpl.
  destruct (thrown host NoArg (closeHandlers (client w))); [|exact H].
  destruct H as [H1 H2]. unfold this, bind. simpl. rewrite H1. simpl.
  split; assumption.
Qed.

(** The socket [connect] leaves in [this.ws]: CONNECTING, with the four
    callbacks of the client, nothing sent. *)
Lemma alter_last (f : WebSocket -> WebSocket) (l : list WebSocket) (x : WebSocket) :
  alter f (length l) (l ++ [x]) = l ++ [f x].
Proof.
  replace (length l) with (length l + 0) by lia.
  rewrite alter_app_r. reflexivity.
Qed.

Lemma connect_constructs (host : Host) (w : World) :
  transport_open w = None ->
  WebSocket_accepts host (url (client w)) (protocols (client w)) = true ->
  connect host w =
  (with_sockets (sockets w ++ [connected_WebSocket])
     (with_client (set_ws (Some (length (sockets w))) (client w)) w),
   Return tt).
Proof.
  intros Hopen Hacc.
  assert (is_OPEN match ws (client w) with
                  | Some s => readyState <$> sockets w !! s
                  | None => None
                  end = false) as Hst.
  { unfold transport_open in Hopen.
    destruct (ws (client w)) as [s|]; [|reflexivity].
    destruct (sockets w !! s) as [sk|]; [|reflexivity].
    simpl. destruct (readyState sk); try reflexivity. discriminate Hopen. }
  unfold connect, bind, ws_readyState. rewrite Hst.
  unfold try_catch, this, new_WebSocket, assign, on_socket. rewrite Hacc.
  cbn. rewrite !alter_last. reflexivity.
Qed.

Lemma connect_rejected (host : Host) (w : World) :
  transport_open w = None ->
  WebSocket_accepts host (url (client w)) (protocols (client w)) = false ->
  connect host w =
  reconnect (with_console (console w ++ [ErrorConnectFailed SyntaxError]) w).
Proof.
  intros Hopen Hacc.
  assert (is_OPEN match ws (client w) with
                  | Some s => readyState <$> sockets w !! s
                  | None => None
                  end = false) as Hst.
  { unfold transport_open in Hopen.
    destruct (ws (client w)) as [s|]; [|reflexivity].
    destruct (sockets w !! s) as [sk|]; [|reflexivity].
    simpl. destruct (readyState sk); try reflexivity. discriminate Hopen. }
  unfold connect, bind, ws_readyState. rewrite Hst.
  unfold try_catch, this, new_WebSocket. rewrite Hacc. reflexivity.
Qed.

Lemma close_result (w : World) :
  let w' := after close w in
  ws (client w') = None /\
  url (client w') = url (client w) /\
  protocols (client w') = protocols (client w) /\
  length (sockets w') = length (sockets w).
Proof.
  destruct w as [[s u p hi ri ra cur ht rt mc mh oh ch eh] socks tms nid ops con cls].
  unfold after, close, stopHeartbeat, stopReconnect, WebSocket_close, bind, this,
    assign, on_socket, clearInterval, clearTimeout, clearTimer, truthy, ret.
  cbn.
  destruct ht as [i|]; cbn; [destruct (i =? 0)%Z; cbn|];
    (destruct rt as [j|]; cbn; [destruct (j =? 0)%Z; cbn|]);
    (destruct s as [s|]; cbn);
    rewrite ?length_alter; repeat split; reflexivity.
Qed.

Lemma reconnect_keeps_ws (w : World) :
  ws (client (after reconnect w)) = ws (client w).
Proof.
  unfold after, reconnect, bind, this, assign, console_put, window_setTimeout.
  cbn. destruct (_ <=? _)%Z; reflexivity.
Qed.

Lemma close_then_connect (host : Host) (w : World) :
  let w2 := exec host [CallClose; CallConnect] w in
  ws (client w2) =
    (if WebSocket_accepts host (url (client w)) (protocols (client w))
     then Some (length (sockets w)) else None).
Proof.
  simpl. destruct (close_result w) as (Hws & Hurl & Hpr & Hlen).
  set (w' := after close w) in *. rewrite <- Hurl, <- Hpr, <- Hlen.
  assert (transport_open w' = None) as Hopen
    by (unfold transport_open; rewrite Hws; reflexivity).
  unfold after at 1.
  destruct (WebSocket_accepts host (url (client w')) (protocols (client w'))) eqn:Ha.
  - rewrite (connect_constructs host w' Hopen Ha). reflexivity.
  - rewrite (connect_rejected host w' Hopen Ha).
    fold (after reconnect (with_console (console w' ++ [ErrorConnectFailed SyntaxError]) w')).
    rewrite reconnect_keeps_ws. exact Hws.
Qed.

(** C2, as the code has it.  [connect()] after a manual [close()] is
    legal and constructs a new transport when the constructor accepts
    the arguments, but nothing clears [isManualClose]: it is still set
    after the [connect()] and after whatever follows it, so a later
    close event of a transport does not schedule a reconnect. *)
Theorem connect_after_close_keeps_flag (host : Host) (w : World)
    (evs : list Event) (s : nat) :
  let w1 := exec host (CallClose :: CallConnect :: evs) w in
  ws (client (exec host [CallClose; CallConnect] w)) =
    (if WebSocket_accepts host (url (client w)) (protocols (client w))
     then Some (length (sockets w)) else None) /\
  isManualClose (client w1) = true /\
  scheduled (after (dispatch host (SocketCloses s)) w1) = scheduled w1.
Proof.
  intros w1. split; [apply close_then_connect|].
  assert (closed_manually w1) as Hm.
  { apply (exec_keeps_manual host (CallConnect :: evs)), close_sets_manual. }
  split; [exact Hm|].
  assert (preserves (closed_by_hand (scheduled w1)) (dispatch host (SocketCloses s))) as Hp.
  { simpl. apply preserves_socket_event; [|apply handleClose_closed_by_hand].
    intros r w' H. exact H. }
  apply Hp. split; [exact Hm | reflexivity].
Qed.

(** ** The budget of [reconnect] *)

Ltac leaf_budget :=
  let w := fresh "w" in
  let H1 := fresh "H" in let H2 := fresh "H" in let H3 := fresh "H" in
  intros w (H1 & H2 & H3); unfold within_budget, scheduled in *; run_primitive;
  rewrite ?List.filter_app; cbn; rewrite ?app_nil_r;
  repeat split; assumption.

Lemma reconnect_within_budget (N : Z) (n k : nat) :
  preserves (within_budget N n k) reconnect.
Proof.
  intros w (H1 & H2 & H3).
  unfold after, reconnect, bind, this, assign, console_put, window_setTimeout.
  cbn. unfold within_budget, scheduled in *.
  destruct (reconnectAttempts (client w) <=? currentReconnectAttempts (client w))%Z
    eqn:Hfull; cbn.
  - repeat split; assumption.
  - apply Z.leb_gt in Hfull. rewrite List.filter_app, length_app. cbn.
    repeat split; [assumption | lia | lia].
Qed.

Lemma connect_within_budget (host : Host) (N : Z) (n k : nat) :
  preserves (within_budget N n k) (connect host).
Proof.
  unfold connect.
  pres ltac:(first [apply reconnect_within_budget | leaf_budget]).
Qed.

Lemma heartbeatTick_within_budget (N : Z) (n k : nat) :
  preserves (within_budget N n k) heartbeatTick.
Proof. unfold heartbeatTick, send. pres ltac:(leaf_budget). Qed.

Lemma dispatch_within_budget (host : Host) (N : Z) (n k : nat) (e : Event) :
  is_SocketOpens e = false ->
  preserves (within_budget N n k) (dispatch host e).
Proof.
  intros He.
  destruct e; try discriminate He; clear He;
    unfold dispatch, discard, send, close, onMessage, onOpen, onClose,
      onError, unsubscribe, getReadyState, handleMessage,
      handleClose, handleError, stopHeartbeat, stopReconnect.
  all: pres ltac:(first [apply reconnect_within_budget
                        | apply connect_within_budget
                        | apply heartbeatTick_within_budget | leaf_budget]).
Qed.

Lemma exec_within_budget (host : Host) (N : Z) (n k : nat) (evs : list Event) (w : World) :
  no_open evs = true ->
  within_budget N n k w -> within_budget N n k (exec host evs w).
Proof.
  revert w. induction evs as [|e rest IH]; intros w Hno H; simpl; [exact H|].
  simpl in Hno. apply andb_prop in Hno as [He Hrest].
  apply IH; [exact Hrest|]. apply dispatch_within_budget; [|exact H].
  destruct (is_SocketOpens e); [discriminate He | reflexivity].
Qed.

Lemma handleOpen_resets (host : Host) (w : World) :
  currentReconnectAttempts (client (after (handleOpen host) w)) = 0%Z.
Proof.
  unfold after. destruct (handleOpen_delivery host w) as (w1 & -> & _ & H0).
  rewrite forEach_call. exact H0.
Qed.

(** C6.  While no socket opens, a client whose counter is at 0 schedules
    at most [reconnectAttempts] reconnect attempts, whatever else
    happens; once the counter has reached the ceiling nothing more is
    scheduled, by a close event or otherwise; and [handleOpen] puts the
    counter back to 0 whatever it was. *)
Theorem reconnect_budget (host : Host) (w : World) (evs : list Event)
    (Hno : no_open evs = true) :
  let N := reconnectAttempts (client w) in
  let w' := exec host evs w in
  (currentReconnectAttempts (client w) = 0%Z ->
   scheduled w' <= scheduled w + Z.to_nat N) /\
  ((N <= currentReconnectAttempts (client w))%Z ->
   scheduled w' = scheduled w) /\
  currentReconnectAttempts (client (after (handleOpen host) w')) = 0%Z.
Proof.
  intros N w'.
  assert (within_budget N (scheduled w)
            (scheduled w + Z.to_nat (N - currentReconnectAttempts (client w))) w')
    as (_ & Hlo & Hhi).
  { apply exec_within_budget; [exact Hno|].
    repeat split; [reflexivity | lia]. }
  split; [|split].
  - intros H0. rewrite H0 in Hhi. replace (N - 0)%Z with N in Hhi by lia. lia.
  - intros Hfull. lia.
  - apply handleOpen_resets.
Qed.

(** ** Well-formed pages *)

Lemma boot_wf (host : Host) (options : SocketOptions) : wf host (boot options).
Proof.
  split; cbn; try constructor; discriminate.
Qed.

(** An assignment that leaves the heartbeat handle and the constructor's
    arguments alone, and that keeps or drops [ws]. *)
Lemma wf_assign (host : Host) (f : SocketClient -> SocketClient) :
  (forall c, heartbeatTimer (f c) = heartbeatTimer c /\
             url (f c) = url c /\ protocols (f c) = protocols c /\
             (ws (f c) = ws c \/ ws (f c) = None)) ->
  preserves (wf host) (assign f).
Proof.
  intros Hf w [Hn Hi Hd Hh Hhd Hb Hw].
  destruct (Hf (client w)) as (Ht & Hu & Hp & Hs).
  unfold after, assign. split; cbn; try assumption.
  - rewrite Ht. exact Hh.
  - rewrite Ht. exact Hhd.
  - rewrite Hu, Hp. intros s Hs'. destruct Hs as [Hs|Hs]; rewrite Hs in Hs'.
    + exact (Hw s Hs').
    + discriminate Hs'.
Qed.

Lemma wf_console_put (host : Host) (msg : ConsoleMsg) :
  preserves (wf host) (console_put msg).
Proof. intros w []. split; assumption. Qed.

Lemma wf_call (host : Host) (a : Arg) (h : Handler) :
  preserves (wf host) (call host a h).
Proof.
  intros w []. unfold after, call.
  destruct (handler_throws host h a); split; assumption.
Qed.

Lemma wf_on_socket (host : Host) (s : nat) (f : WebSocket -> WebSocket) :
  (forall sk, bound sk = true -> bound (f sk) = true) ->
  preserves (wf host) (on_socket s f).
Proof.
  intros Hf w [Hn Hi Hd Hh Hhd Hb Hw]. split; try assumption.
  cbn. apply Forall_alter; [exact Hb|]. intros sk _. apply Hf.
Qed.

Lemma wf_WebSocket_send (host : Host) (s : nat) (data : Payload) :
  preserves (wf host) (WebSocket_send s data).
Proof.
  intros w H. unfold after, WebSocket_send.
  destruct (readyState <$> sockets w !! s) as [[]|]; try exact H.
  apply (wf_on_socket host s (push_sent data)); [|exact H].
  intros sk Hsk. exact Hsk.
Qed.

Lemma wf_WebSocket_close (host : Host) (s : nat) :
  preserves (wf host) (WebSocket_close s).
Proof.
  apply wf_on_socket. intros sk Hsk. destruct (readyState sk); exact Hsk.
Qed.

Lemma wf_set_readyState (host : Host) (s : nat) (r : ReadyState) :
  preserves (wf host) (on_socket s (set_readyState r)).
Proof. apply wf_on_socket. intros sk Hsk. exact Hsk. Qed.

Lemma NoDup_drop_timer (id : Z) (l : list Timer) :
  NoDup (timerId <$> l) -> NoDup (timerId <$> drop_timer id l).
Proof.
  intros H. apply (sublist_NoDup _ _ H).
  apply fmap_sublist, sublist_filter.
Qed.

Lemma Forall_drop_timer (P : Timer -> Prop) (id : Z) (l : list Timer) :
  Forall P l -> Forall P (drop_timer id l).
Proof.
  rewrite !Forall_forall. intros H t Ht.
  apply list_elem_of_filter in Ht as [_ Ht]. exact (H t Ht).
Qed.

Lemma wf_drop_timer (host : Host) (id : Z) (ops : list TimerOp) (w : World) :
  wf host w ->
  wf host (with_timers (drop_timer id (timers w)) (nextTimerId w) ops w).
Proof.
  intros [Hn Hi Hd Hh Hhd Hb Hw]. split; cbn; try assumption.
  - apply Forall_drop_timer, Hi.
  - apply NoDup_drop_timer, Hd.
  - apply Forall_drop_timer, Hh.
Qed.

Lemma wf_clearTimer (host : Host) (id : Z) : preserves (wf host) (clearTimer id).
Proof. intros w H. apply wf_drop_timer, H. Qed.

Lemma wf_spend (host : Host) (id : Z) : preserves (wf host) (spend id).
Proof. intros w H. apply wf_drop_timer, H. Qed.

Lemma fresh_timer_id (w : World) :
  Forall (fun t => (0 < timerId t < nextTimerId w)%Z) (timers w) ->
  nextTimerId w ∉ timerId <$> timers w.
Proof.
  intros Hi Hin. apply list_elem_of_fmap in Hin as (t & Heq & Ht).
  rewrite Forall_forall in Hi. specialize (Hi t Ht). lia.
Qed.

Lemma wf_setTimeout (host : Host) (delay : Z) :
  preserves (wf host) (window_setTimeout ReconnectRetry delay).
Proof.
  intros w [Hn Hi Hd Hh Hhd Hb Hw]. unfold after, window_setTimeout.
  split; cbn; try assumption.
  - lia.
  - apply Forall_app. split.
    + eapply Forall_impl; [exact Hi|]. cbn. intros t Ht. lia.
    + repeat constructor; cbn; lia.
  - rewrite fmap_app. apply NoDup_app. split; [exact Hd|]. split.
    + intros x Hx Hin. apply list_elem_of_singleton in Hin. subst x.
      exact (fresh_timer_id w Hi Hx).
    + apply NoDup_singleton.
  - apply Forall_app. split; [exact Hh|].
    repeat constructor. cbn. discriminate.
Qed.

Lemma no_heartbeat_filter (l : list Timer) :
  Forall (fun t => is_heartbeat t = false) l -> List.filter is_heartbeat l = [].
Proof.
  induction 1 as [|t rest Ht _ IH]; [reflexivity|].
  cbn. rewrite Ht. exact IH.
Qed.

Lemma filter_no_heartbeat (l : list Timer) :
  List.filter is_heartbeat l = [] -> Forall (fun t => is_heartbeat t = false) l.
Proof.
  induction l as [|t rest IH]; [constructor|].
  cbn. destruct (is_heartbeat t) eqn:Ht; [discriminate|].
  intros H. constructor; [exact Ht | exact (IH H)].
Qed.

(** Once the handle is cleared no heartbeat timer is left: the only one
    that could be live was the one the handle named. *)
Lemma stopHeartbeat_off (host : Host) (w : World) :
  wf host w ->
  wf host (after stopHeartbeat w) /\ heartbeat_off (after stopHeartbeat w).
Proof.
  intros Hwf. pose proof Hwf as [Hn Hi Hd Hh Hhd Hb Hw].
  unfold after, stopHeartbeat, bind, this, truthy.
  destruct (heartbeatTimer (client w)) as [id|] eqn:Hid.
  - assert ((id =? 0)%Z = false) as -> by (specialize (Hhd id eq_refl); lia).
    cbn.
    assert (Forall (fun t => is_heartbeat t = false) (drop_timer id (timers w))) as Hnone.
    { rewrite Forall_forall in *. intros t Ht.
      apply list_elem_of_filter in Ht as [Hne Ht].
      destruct (is_heartbeat t) eqn:Hk; [|reflexivity].
      specialize (Hh t Ht Hk). congruence. }
    split; [split; cbn; try assumption|split; cbn].
    + apply Forall_drop_timer, Hi.
    + apply NoDup_drop_timer, Hd.
    + eapply Forall_impl; [exact Hnone|]. cbn. intros t Ht Hk. congruence.
    + discriminate.
    + reflexivity.
    + apply no_heartbeat_filter, Hnone.
  - cbn. split; [exact Hwf|]. split; [exact Hid|].
    apply no_heartbeat_filter. eapply Forall_impl; [exact Hh|].
    cbn. intros t Ht. destruct (is_heartbeat t); [|reflexivity].
    specialize (Ht eq_refl). congruence.
Qed.

Lemma wf_stopHeartbeat (host : Host) : preserves (wf host) stopHeartbeat.
Proof. intros w H. apply stopHeartbeat_off, H. Qed.

(** [startHeartbeat] leaves exactly one heartbeat timer live, the one
    it has just set. *)
Lemma startHeartbeat_one (host : Host) (w : World) :
  wf host w ->
  let w' := after startHeartbeat w in
  wf host w' /\
  exists id delay,
    heartbeatTimer (client w') = Some id /\
    live_heartbeats w' =
      [{| timerId := id; timerKind := HeartbeatTick;
          timerRepeats := true; timerDelay := delay |}].
Proof.
  intros Hwf w'. subst w'.
  unfold startHeartbeat. rewrite after_bind.
  destruct (stopHeartbeat_off host w Hwf) as [H1 [Hoff Hlive]].
  assert (outcome stopHeartbeat w = Return tt) as ->.
  { unfold outcome, stopHeartbeat, bind, this, truthy.
    destruct (heartbeatTimer (client w)) as [id|]; [|reflexivity].
    destruct (negb (id =? 0)%Z); reflexivity. }
  revert H1 Hoff Hlive. generalize (after stopHeartbeat w). clear w Hwf.
  intros w [Hn Hi Hd Hh Hhd Hb Hw] Hoff Hlive.
  unfold after, bind, this, window_setInterval, assign. cbn.
  apply filter_no_heartbeat in Hlive.
  split; [split; cbn; try assumption|].
  - lia.
  - apply Forall_app. split.
    + eapply Forall_impl; [exact Hi|]. cbn. intros t Ht. lia.
    + repeat constructor; cbn; lia.
  - rewrite fmap_app. apply NoDup_app. split; [exact Hd|]. split.
    + intros x Hx Hin. apply list_elem_of_singleton in Hin. subst x.
      exact (fresh_timer_id w Hi Hx).
    + apply NoDup_singleton.
  - apply Forall_app. split.
    + eapply Forall_impl; [exact Hlive|]. cbn. intros t Ht Hk. congruence.
    + repeat constructor.
  - intros id Hid. injection Hid as <-. exact Hn.
  - exists (nextTimerId w), (heartbeatInterval (client w)).
    split; [reflexivity|]. unfold live_heartbeats. cbn.
    rewrite List.filter_app, (no_heartbeat_filter _ Hlive). reflexivity.
Qed.

Lemma wf_startHeartbeat (host : Host) : preserves (wf host) startHeartbeat.
Proof. intros w H. apply (startHeartbeat_one host w H). Qed.

Lemma wf_reconnect (host : Host) : preserves (wf host) reconnect.
Proof.
  unfold reconnect.
  pres ltac:(first [ apply wf_console_put | apply wf_setTimeout
                   | apply wf_assign; intros ?; repeat split; left; reflexivity ]).
Qed.

Lemma connect_already_open (host : Host) (w : World) (s : nat) :
  transport_open w = Some s ->
  connect host w = console_put WarnAlreadyConnected w.
Proof.
  intros Hopen.
  unfold connect, bind, ws_readyState. unfold transport_open in Hopen.
  destruct (ws (client w)) as [s'|]; [|discriminate Hopen].
  destruct (sockets w !! s') as [sk|]; [|discriminate Hopen].
  cbn. destruct (readyState sk); try discriminate Hopen. reflexivity.
Qed.

Lemma wf_connect (host : Host) : preserves (wf host) (connect host).
Proof.
  intros w Hwf. unfold after.
  destruct (transport_open w) as [s|] eqn:Hopen.
  - rewrite (connect_already_open host w s Hopen). apply wf_console_put, Hwf.
  - destruct (WebSocket_accepts host (url (client w)) (protocols (client w))) eqn:Ha.
    + rewrite (connect_constructs host w Hopen Ha). cbn.
      destruct Hwf as [Hn Hi Hd Hh Hhd Hb Hw]. split; cbn; try assumption.
      * apply Forall_app. split; [exact Hb|]. repeat constructor.
      * intros _ _. exact Ha.
    + rewrite (connect_rejected host w Hopen Ha).
      apply wf_reconnect, (wf_console_put host (ErrorConnectFailed SyntaxError)), Hwf.
Qed.

Ltac leaf_wf :=
  first [ apply wf_console_put | apply wf_call | apply wf_setTimeout
        | apply wf_clearTimer | apply wf_spend
        | apply wf_WebSocket_send | apply wf_WebSocket_close
        | apply wf_set_readyState
        | apply wf_stopHeartbeat | apply wf_startHeartbeat
        | apply wf_reconnect | apply wf_connect
        | apply wf_assign; intros ?; repeat split;
          first [left; reflexivity | right; reflexivity] ].

Lemma wf_heartbeatTick (host : Host) : preserves (wf host) heartbeatTick.
Proof. unfold heartbeatTick, send. pres ltac:(leaf_wf). Qed.

Lemma wf_dispatch (host : Host) (e : Event) : preserves (wf host) (dispatch host e).
Proof.
  destruct e; unfold dispatch, discard, send, close, onMessage, onOpen, onClose,
    onError, unsubscribe, getReadyState, handleOpen, handleMessage,
    handleClose, handleError, stopReconnect.
  all: pres ltac:(first [apply wf_heartbeatTick | leaf_wf]).
Qed.

Lemma wf_exec (host : Host) (evs : list Event) (w : World) :
  wf host w -> wf host (exec host evs w).
Proof.
  revert w. induction evs as [|e rest IH]; intros w H; simpl; [exact H|].
  apply IH, wf_dispatch, H.
Qed.

(** Every page the event loop reaches from a new client is well-formed. *)
Lemma reachable_wf (host : Host) (options : SocketOptions) (evs : list Event) :
  wf host (exec host evs (boot options)).
Proof. apply wf_exec, boot_wf. Qed.

(** The heartbeat half of the timer invariant: at most one heartbeat
    timer is live. *)
Lemma one_live_heartbeat (host : Host) (w : World) :
  wf host w -> length (live_heartbeats w) <= 1.
Proof.
  intros [_ _ Hd Hh _ _ _]. unfold live_heartbeats.
  revert Hd Hh. generalize (heartbeatTimer (client w)) as handle.
  induction (timers w) as [|t rest IH]; intros handle Hd Hh; cbn; [lia|].
  apply NoDup_cons in Hd as [Hnew Hd]. apply Forall_cons in Hh as [Ht Hh].
  destruct (is_heartbeat t) eqn:Hk; [|exact (IH handle Hd Hh)].
  rewrite no_heartbeat_filter; [cbn; lia|].
  rewrite Forall_forall in *. intros t' Ht'.
  destruct (is_heartbeat t') eqn:Hk'; [|reflexivity].
  exfalso. apply Hnew. apply list_elem_of_fmap. exists t'.
  split; [|exact Ht']. specialize (Hh t' Ht' Hk'). specialize (Ht eq_refl).
  congruence.
Qed.

(** ** [connect] over a transport that is not OPEN *)

(** C10.  On a page reached from a new client, when [this.ws] names a
    socket that is not OPEN, [connect] returns, constructs one more
    socket, CONNECTING and carrying the client's four callbacks, and
    makes [this.ws] name it; the socket named before is a different one,
    is left exactly as it was (it is not closed) and still carries the
    client's four callbacks. *)
Theorem connect_supersedes (host : Host) (options : SocketOptions)
    (evs : list Event) (s : nat) (sk : WebSocket) :
  let w := exec host evs (boot options) in
  ws (client w) = Some s ->
  sockets w !! s = Some sk ->
  readyState sk <> OPEN ->
  let w' := after (connect host) w in
  outcome (connect host) w = Return tt /\
  sockets w' = sockets w ++ [connected_WebSocket] /\
  ws (client w') = Some (length (sockets w)) /\
  s <> length (sockets w) /\
  sockets w' !! s = Some sk /\
  bound sk = true.
Proof.
  intros w Hws Hsk Hst w'. subst w'.
  pose proof (reachable_wf host options evs) as Hwf. fold w in Hwf.
  assert (transport_open w = None) as Hopen.
  { unfold transport_open. rewrite Hws, Hsk.
    destruct (readyState sk); try reflexivity. contradiction. }
  pose proof (wf_ws host w Hwf s Hws) as Ha.
  unfold after, outcome. rewrite (connect_constructs host w Hopen Ha). cbn.
  pose proof (lookup_lt_Some _ _ _ Hsk) as Hlt.
  repeat split.
  - lia.
  - rewrite lookup_app_l; [exact Hsk | exact Hlt].
  - pose proof (wf_bound host w Hwf) as Hb.
    rewrite Forall_lookup in Hb. exact (Hb s sk Hsk).
Qed.

(** ** The heartbeat *)

Lemma frames_of_app (l k : list WebSocket) :
  frames_of (l ++ k) = frames_of l + frames_of k.
Proof. induction l as [|sk l IH]; cbn; [reflexivity|]. rewrite IH. lia. Qed.

Lemma frames_of_alter (f : WebSocket -> WebSocket) (s : nat) (l : list WebSocket) :
  (forall sk, sent (f sk) = sent sk) ->
  frames_of (alter f s l) = frames_of l.
Proof.
  intros Hf. revert s. induction l as [|sk l IH]; intros [|s]; cbn;
    rewrite ?Hf, ?IH; reflexivity.
Qed.

Ltac leaf_frames :=
  let w := fresh "w" in let H := fresh "H" in
  intros w H; unfold frames_are, frames in *; run_primitive;
  rewrite ?frames_of_app, ?frames_of_alter; cbn;
  first [ lia
        | let sk := fresh "sk" in
          intros sk; try destruct (readyState sk); reflexivity ].

Lemma reconnect_frames (n : nat) : preserves (frames_are n) reconnect.
Proof. unfold reconnect. pres ltac:(leaf_frames). Qed.

Lemma connect_frames (host : Host) (n : nat) : preserves (frames_are n) (connect host).
Proof.
  unfold connect. pres ltac:(first [apply reconnect_frames | leaf_frames]).
Qed.

Ltac leaf_off :=
  let w := fresh "w" in let H1 := fresh "H" in let H2 := fresh "H" in
  intros w [H1 H2]; unfold heartbeat_off, live_heartbeats in *; run_primitive;
  (split; [first [assumption | reflexivity]|]);
  rewrite ?List.filter_app, ?H2; cbn;
  first [ assumption | reflexivity
        | apply no_heartbeat_filter, Forall_drop_timer, filter_no_heartbeat, H2 ].

Lemma reconnect_off : preserves heartbeat_off reconnect.
Proof. unfold reconnect. pres ltac:(leaf_off). Qed.

Lemma connect_off (host : Host) : preserves heartbeat_off (connect host).
Proof.
  unfold connect. pres ltac:(first [apply reconnect_off | leaf_off]).
Qed.

Lemma heartbeatTick_off : preserves heartbeat_off heartbeatTick.
Proof. unfold heartbeatTick, send. pres ltac:(leaf_off). Qed.

Lemma dispatch_off (host : Host) (e : Event) :
  is_SocketOpens e = false -> preserves heartbeat_off (dispatch host e).
Proof.
  intros He.
  destruct e; try discriminate He; clear He;
    unfold dispatch, discard, send, close, onMessage, onOpen, onClose,
      onError, unsubscribe, getReadyState, handleMessage,
      handleClose, handleError, stopHeartbeat, stopReconnect.
  all: pres ltac:(first [apply reconnect_off | apply connect_off
                        | apply heartbeatTick_off | leaf_off]).
Qed.

(** What [m] establishes and [k] keeps holds after [m ;; k], whether [m]
    returns or throws. *)
Lemma establishes_bind {A B} (Q : World -> Prop) (m : M A) (k : A -> M B) (w : World) :
  Q (after m w) -> (forall a, preserves Q (k a)) -> Q (after (bind m k) w).
Proof.
  intros Hm Hk. rewrite after_bind.
  destruct (outcome m w); [apply Hk|]; exact Hm.
Qed.

Lemma preserves_and {A} (P Q : World -> Prop) (m : M A) :
  preserves P m -> preserves Q m -> preserves (fun w => P w /\ Q w) m.
Proof. intros HP HQ w [H1 H2]. split; [apply HP, H1 | apply HQ, H2]. Qed.

Lemma dispatch_frames (host : Host) (n : nat) (e : Event) :
  is_CallSend e = false ->
  (forall id, e <> TimerFires id) ->
  preserves (frames_are n) (dispatch host e).
Proof.
  intros He Ht.
  destruct e; try discriminate He; try (exfalso; eapply Ht; reflexivity);
    clear He Ht;
    unfold dispatch, discard, close, onMessage, onOpen, onClose,
      onError, unsubscribe, getReadyState, handleOpen, handleMessage,
      handleClose, handleError, startHeartbeat, stopHeartbeat, stopReconnect.
  all: pres ltac:(first [apply reconnect_frames | apply connect_frames
                        | leaf_frames]).
Qed.

(** With the heartbeat off, a timer that fires is a reconnect timer. *)
Lemma timer_event_silent (host : Host) (n : nat) (id : Z) :
  preserves (silent n) (timer_event host id).
Proof.
  intros w [Hoff Hfr]. unfold after, timer_event.
  destruct (find _ (timers w)) as [t|] eqn:Hfind; [|split; assumption].
  apply find_some in Hfind as [Hin _].
  assert (timerKind t = ReconnectRetry) as ->.
  { destruct Hoff as [_ Hlive]. apply filter_no_heartbeat in Hlive.
    rewrite Forall_forall in Hlive. apply list_elem_of_In in Hin.
    specialize (Hlive t Hin). unfold is_heartbeat in Hlive.
    destruct (timerKind t); [discriminate Hlive | reflexivity]. }
  apply (preserves_bind (silent n) (if timerRepeats t then ret tt else spend id)
           (fun _ => reconnectRetry host)); [| |split; assumption].
  - destruct (timerRepeats t); [apply preserves_ret|].
    apply preserves_and; [leaf_off | leaf_frames].
  - intros _. apply preserves_and; [apply connect_off | apply connect_frames].
Qed.

Lemma dispatch_silent (host : Host) (n : nat) (e : Event) :
  is_SocketOpens e = false -> is_CallSend e = false ->
  preserves (silent n) (dispatch host e).
Proof.
  intros Ho Hs.
  destruct (match e with TimerFires _ => true | _ => false end) eqn:Ht.
  - destruct e; try discriminate Ht. apply timer_event_silent.
  - apply preserves_and; [apply dispatch_off, Ho|].
    apply dispatch_frames; [exact Hs|]. intros id ->. discriminate Ht.
Qed.

Lemma exec_silent (host : Host) (n : nat) (evs : list Event) (w : World) :
  quiet evs = true -> silent n w -> silent n (exec host evs w).
Proof.
  revert w. induction evs as [|e rest IH]; intros w Hq H; simpl; [exact H|].
  simpl in Hq. apply andb_prop in Hq as [He Hrest].
  apply andb_prop in He as [Ho Hs].
  apply IH; [exact Hrest|]. apply dispatch_silent; [| |exact H].
  - destruct (is_SocketOpens e); [discriminate Ho | reflexivity].
  - destruct (is_CallSend e); [discriminate Hs | reflexivity].
Qed.

Lemma stopHeartbeat_returns (w : World) : outcome stopHeartbeat w = Return tt.
Proof.
  unfold outcome, stopHeartbeat, bind, this, truthy.
  destruct (heartbeatTimer (client w)) as [id|]; [|reflexivity].
  destruct (negb (id =? 0)%Z); reflexivity.
Qed.

(** [handleClose] leaves the heartbeat off, whether or not a
    close-subscriber throws. *)
Lemma handleClose_off (host : Host) (w : World) :
  wf host w -> heartbeat_off (after (handleClose host) w).
Proof.
  intros Hwf. unfold handleClose.
  set (w1 := after (console_put LogClosed) w).
  assert (wf host w1) as Hwf1 by (apply wf_console_put, Hwf).
  destruct (stopHeartbeat_off host w1 Hwf1) as [_ Hoff].
  rewrite after_bind. change (outcome (console_put LogClosed) w) with (Return tt).
  fold w1. apply establishes_bind; [exact Hoff|].
  pres ltac:(first [apply reconnect_off | leaf_off]).
Qed.

Lemma close_event_off (host : Host) (w : World) (s : nat) :
  wf host w -> can_close w s = true ->
  heartbeat_off (after (dispatch host (SocketCloses s)) w).
Proof.
  intros Hwf Hs. unfold can_close in Hs. cbn. unfold after, socket_event.
  destruct (sockets w !! s) as [sk|] eqn:Hsk; [|discriminate Hs].
  rewrite Hs.
  assert (onclose sk = true) as ->.
  { pose proof (wf_bound host w Hwf) as Hb. rewrite Forall_lookup in Hb.
    specialize (Hb s sk Hsk). unfold bound in Hb.
    destruct (onopen sk), (onmessage sk), (onclose sk); try discriminate Hb.
    reflexivity. }
  change (heartbeat_off
            (after (handleClose host)
               (after (on_socket s (set_readyState CLOSED)) w))).
  apply handleClose_off. apply (wf_set_readyState host s CLOSED), Hwf.
Qed.

Lemma heartbeatTick_sends (w : World) :
  heartbeatTick w =
  match transport_open w with
  | Some s =>
      (with_sockets (alter (push_sent (PString ping_text)) s (sockets w)) w,
       Return tt)
  | None => (w, Return tt)
  end.
Proof.
  pose proof (send_result w (PString ping_text)) as Hsend.
  unfold heartbeatTick, bind, ws_readyState, transport_open in *.
  destruct (ws (client w)) as [s|]; cbn; [|reflexivity].
  destruct (sockets w !! s) as [sk|]; cbn; [|reflexivity].
  destruct (readyState sk); cbn in *; try reflexivity. exact Hsend.
Qed.

(** *** What the sockets were given *)

Lemma sent_alter_same (f : WebSocket -> WebSocket) (s : nat) (l : list WebSocket) :
  (forall sk, sent (f sk) = sent sk) ->
  sent <$> alter f s l = sent <$> l.
Proof.
  intros Hf. revert s. induction l as [|sk l IH]; intros [|s]; cbn;
    rewrite ?Hf, ?IH; reflexivity.
Qed.

Lemma sent_alter_push (data : Payload) (s : nat) (l : list WebSocket) :
  sent <$> alter (push_sent data) s l =
  alter (fun frames => frames ++ [data]) s (sent <$> l).
Proof.
  apply list_fmap_alter. rewrite Forall_forall. intros sk _. reflexivity.
Qed.

Ltac leaf_log :=
  let w := fresh "w" in let k := fresh "k" in let H := fresh "H" in
  intros w [k H]; unfold log_extends in *; run_primitive;
  first
    [ exists k; exact H
    | exists k; rewrite sent_alter_same;
      [ exact H
      | let sk := fresh "sk" in
        intros sk; try destruct (readyState sk); reflexivity ]
    | exists (S k); rewrite fmap_app, H, replicate_S_end, app_assoc;
      reflexivity ].

Lemma reconnect_log (l : list (list Payload)) : preserves (log_extends l) reconnect.
Proof. unfold reconnect. pres ltac:(leaf_log). Qed.

Lemma connect_log (host : Host) (l : list (list Payload)) :
  preserves (log_extends l) (connect host).
Proof.
  unfold connect. pres ltac:(first [apply reconnect_log | leaf_log]).
Qed.

Lemma log_extends_refl (w : World) : log_extends (sent <$> sockets w) w.
Proof. exists 0. cbn. rewrite app_nil_r. reflexivity. Qed.

Lemma send_log (data : Payload) (w : World) :
  sent <$> sockets (after (send data) w) =
  match transport_open w with
  | Some s => alter (fun frames => frames ++ [data]) s (sent <$> sockets w)
  | None => sent <$> sockets w
  end.
Proof.
  unfold after. rewrite send_result.
  destruct (transport_open w) as [s|]; [|reflexivity].
  apply sent_alter_push.
Qed.

Lemma heartbeat_off_fires (w : World) (id : Z) :
  heartbeat_off w -> heartbeat_fires w id = false.
Proof.
  intros [_ Hlive]. unfold heartbeat_fires.
  destruct (find _ (timers w)) as [t|] eqn:Hfind; [|reflexivity].
  apply find_some in Hfind as [Hin _].
  apply filter_no_heartbeat in Hlive. rewrite Forall_forall in Hlive.
  apply Hlive, list_elem_of_In, Hin.
Qed.

(** A timer that fires gives a socket a frame only if it is a live
    heartbeat timer and [this.ws] is OPEN; a retry may add a socket,
    which has no frame yet. *)
Lemma timer_event_log (host : Host) (id : Z) (w : World) :
  exists k,
    sent <$> sockets (after (timer_event host id) w) =
    match (if heartbeat_fires w id then transport_open w else None) with
    | Some s =>
        alter (fun frames => frames ++ [PString ping_text]) s (sent <$> sockets w)
    | None => sent <$> sockets w
    end ++ replicate k [].
Proof.
  unfold after, timer_event, heartbeat_fires.
  destruct (find _ (timers w)) as [t|];
    [|exists 0; cbn; rewrite app_nil_r; reflexivity].
  assert (exists w', (if timerRepeats t then ret tt else spend id) w = (w', Return tt)
                     /\ sockets w' = sockets w /\ client w' = client w)
    as (w' & Hrun & Hsock & Hcl)
    by (destruct (timerRepeats t); eexists; repeat split; reflexivity).
  unfold bind. rewrite Hrun.
  assert (transport_open w' = transport_open w) as Hopen
    by (unfold transport_open; rewrite Hsock, Hcl; reflexivity).
  unfold is_heartbeat. destruct (timerKind t); cbv beta iota.
  - exists 0. cbn [replicate]. rewrite app_nil_r.
    pose proof (send_log (PString ping_text) w') as Hsend.
    unfold after in Hsend. rewrite send_result in Hsend.
    rewrite heartbeatTick_sends, <- Hopen, <- Hsock.
    destruct (transport_open w') as [s|]; [exact Hsend | reflexivity].
  - rewrite <- Hsock.
    exact (connect_log host (sent <$> sockets w') w' (log_extends_refl w')).
Qed.

Lemma exec_off (host : Host) (evs : list Event) (w : World) :
  no_open evs = true -> heartbeat_off w -> heartbeat_off (exec host evs w).
Proof.
  revert w. induction evs as [|e rest IH]; intros w Hno H; simpl; [exact H|].
  simpl in Hno. apply andb_prop in Hno as [He Hrest].
  apply IH; [exact Hrest|]. apply dispatch_off; [|exact H].
  destruct (is_SocketOpens e); [discriminate He | reflexivity].
Qed.

(** C8.  A heartbeat tick, in every state: when [this.ws] names a
    socket that is OPEN, the only change is to that socket, whose frames
    are now the frames it had followed by the 15 characters of
    [{ type: 'ping' }] serialized ([{], ["type"], [:], ["ping"], [}]);
    otherwise the tick changes nothing.  On a page reached from a new
    client, the close event of a socket leaves no heartbeat timer live
    and no handle held; this stays so as long as no socket opens,
    whatever else happens and whatever the application sends; and in any
    such later state a timer that fires, whichever it is, gives no
    frame to any socket (a retry may add a socket, which has none). *)
Theorem heartbeat_tick_and_stop (host : Host) (options : SocketOptions)
    (pre : list Event) (s : nat) (evs : list Event) (id : Z)
    (Hs : can_close (exec host pre (boot options)) s = true)
    (Hq : no_open evs = true) :
  let w := exec host pre (boot options) in
  let w1 := after (dispatch host (SocketCloses s)) w in
  let w2 := exec host evs w1 in
  let ping := PString (string_of_list_ascii (ascii_of_nat <$> [123; 34; 116; 121; 112; 101; 34; 58; 34; 112; 105; 110; 103; 34; 125])) in
  (forall w0,
     heartbeatTick w0 =
     (match ws (client w0) with
      | Some t =>
          match sockets w0 !! t with
          | Some sk =>
              match readyState sk with
              | OPEN =>
                  {| client := client w0;
                     sockets :=
                       <[t := {| readyState := readyState sk;
                                 onopen := onopen sk; onmessage := onmessage sk;
                                 onclose := onclose sk; onerror := onerror sk;
                                 sent := sent sk ++ [ping] |}]> (sockets w0);
                     timers := timers w0; nextTimerId := nextTimerId w0;
                     timerOps := timerOps w0; console := console w0;
                     calls := calls w0 |}
              | _ => w0
              end
          | None => w0
          end
      | None => w0
      end, Return tt)) /\
  heartbeatTimer (client w1) = None /\
  live_heartbeats w1 = [] /\
  heartbeatTimer (client w2) = None /\
  live_heartbeats w2 = [] /\
  exists k,
    sent <$> sockets (after (dispatch host (TimerFires id)) w2) =
    (sent <$> sockets w2) ++ replicate k [].
Proof.
  intros w w1 w2 ping. split.
  { intros w0. rewrite heartbeatTick_sends. unfold transport_open.
    destruct (ws (client w0)) as [t|]; [|reflexivity].
    destruct (sockets w0 !! t) as [sk|] eqn:Hsk; [|reflexivity].
    destruct (readyState sk) eqn:Hst; try reflexivity. cbn.
    rewrite (alter_insert _ _ _ _ Hsk). unfold push_sent, with_sockets.
    rewrite Hst. reflexivity. }
  assert (heartbeat_off w1) as Hoff1.
  { apply close_event_off; [apply reachable_wf | exact Hs]. }
  assert (heartbeat_off w2) as Hoff2 by (apply exec_off; assumption).
  destruct Hoff1 as [Hh1 Hl1]. pose proof Hoff2 as [Hh2 Hl2].
  repeat (split; [assumption|]).
  destruct (timer_event_log host id w2) as [k Hk].
  rewrite (heartbeat_off_fires w2 id Hoff2) in Hk.
  exists k. exact Hk.
Qed.

(** ** The claims on concrete pages *)

Example ping_text_characters :
  list_ascii_of_string ping_text =
  ascii_of_nat <$> [123; 34; 116; 121; 112; 101; 34; 58; 34; 112; 105; 110; 103; 34; 125].
Proof. reflexivity. Qed.

(** The scenario of the specification: ceiling 2, the socket fails to
    open three times in a row.  Exactly two attempts are scheduled, the
    third close logs the limit, and no timer is left. *)
Example two_attempts_then_stop :
  let w := exec page failing_thrice (boot (options_of (Some 2%Z))) in
  scheduled w = 2 /\
  timers w = [] /\
  console w = [LogClosed; LogReconnecting 1; LogClosed; LogReconnecting 2;
               LogClosed; ErrorReconnectLimit].
Proof. vm_compute. repeat split; reflexivity. Qed.

(** The scenario of the specification: the socket is open and has had
    one heartbeat; it closes; the heartbeat timer is cleared, and the
    timer that fired before no longer sends anything. *)
Example no_heartbeat_after_close :
  let w := exec page [SocketCloses 0; TimerFires 1] open_page in
  timerOps w = [SetInterval 1 30000; ClearTimer 1; SetTimeout 2 5000] /\
  live_heartbeats w = [] /\
  frames w = frames open_page.
Proof. vm_compute. repeat split; reflexivity. Qed.

(** The ceiling the constructor adopts: the value given unless it is
    omitted or 0. *)
Remark constructor_ceiling (options : SocketOptions) :
  reconnectAttempts (new_SocketClient options) =
  match opt_reconnectAttempts options with
  | Some 0%Z | None => 5%Z
  | Some n => n
  end.
Proof.
  unfold new_SocketClient, or_default. cbn.
  destruct (opt_reconnectAttempts options) as [[| |]|]; reflexivity.
Qed.

(** C1 on the code.  [connect()] is called twice before the first socket
    has opened, and both sockets then close.  Each close event runs
    [reconnect], which sets a timer without clearing the one set before:
    two reconnect timers are live and no timer was ever cleared.  The
    first is no longer named by [reconnectTimer], so a later [close()]
    cannot clear it, and when it fires the closed client connects
    again. *)
Theorem reconnect_timers_pile_up :
  let w := exec page [CallConnect; CallConnect; SocketCloses 0; SocketCloses 1]
             (boot (options_of (Some 5%Z))) in
  timers w =
    [ {| timerId := 1; timerKind := ReconnectRetry; timerRepeats := false; timerDelay := 5000 |};
      {| timerId := 2; timerKind := ReconnectRetry; timerRepeats := false; timerDelay := 5000 |} ] /\
  timerOps w = [SetTimeout 1 5000; SetTimeout 2 5000] /\
  reconnectTimer (client w) = Some 2%Z /\
  timerId <$> timers (exec page [CallClose] w) = [1%Z] /\
  ws (client (exec page [CallClose; TimerFires 1] w)) = Some 2.
Proof. vm_compute. repeat split; reflexivity. Qed.

(** C2 refuted.  The client opens, is closed by hand, and is connected
    again; the new socket opens and then closes.  [isManualClose] is
    still set and the close event schedules no reconnect. *)
Lemma connect_after_close_counterexample :
  let w := exec page [CallConnect; SocketOpens 0; CallClose; SocketCloses 0;
                      CallConnect; SocketOpens 1]
             (boot (options_of (Some 5%Z))) in
  isManualClose (client w) = true /\
  can_close w 1 = true /\
  timers (after (dispatch page (SocketCloses 1)) w) = [] /\
  scheduled (after (dispatch page (SocketCloses 1)) w) = 0.
Proof. vm_compute. repeat split; reflexivity. Qed.

(** C3 refuted.  Three open-subscribers are registered, the second of
    which throws: the third is not called. *)
Lemma handleOpen_counterexample :
  let w := exec page [CallOnOpen 1; CallOnOpen 7; CallOnOpen 2; CallConnect]
             (boot (options_of (Some 5%Z))) in
  openHandlers (client w) = [1; 7; 2] /\
  handler_throws page 7 NoArg = true /\
  calls (after (dispatch page (SocketOpens 0)) w) = [(1, NoArg); (7, NoArg)] /\
  outcome (dispatch page (SocketOpens 0)) w = Throw (HandlerThrew 7 NoArg).
Proof. vm_compute. repeat split; reflexivity. Qed.

(** C4 on the code.  A client constructed with [reconnectAttempts: 0]
    has 5 as its ceiling, and schedules a reconnect attempt when its
    socket closes. *)
Theorem zero_attempts_replaced_by_default :
  reconnectAttempts (new_SocketClient (options_of (Some 0%Z))) = 5%Z /\
  scheduled (exec page [CallConnect; SocketCloses 0] (boot (options_of (Some 0%Z)))) = 1.
Proof. vm_compute. split; reflexivity. Qed.

(** C5 on the code.  Two message-subscribers are registered and the
    second throws on a decoded value.  A message whose text decodes is
    delivered decoded to both; the exception of the second lands in the
    [catch] meant for the decoder, which delivers the raw text to both
    again: the first subscriber is called twice for one message. *)
Theorem handleMessage_calls_twice :
  let w := exec page [CallOnMessage 1; CallOnMessage 9; CallConnect; SocketOpens 0]
             (boot (options_of (Some 5%Z))) in
  JSON_parse page (PString "true") = Some (JBool true) /\
  calls (after (dispatch page (SocketMessage 0 (PString "true"))) w) =
    [ (1, Data (JBool true)); (9, Data (JBool true));
      (1, RawData (PString "true")); (9, RawData (PString "true")) ].
Proof. vm_compute. split; reflexivity. Qed.

(** C7 refuted.  The first of two message-subscribers throws.  A text
    that does not decode reaches the first subscriber only; a text that
    decodes reaches the first subscriber only, too, and the second is
    given neither the decoded value nor the text. *)
Lemma handleMessage_counterexample :
  let w := exec page [CallOnMessage 7; CallOnMessage 2; CallConnect; SocketOpens 0]
             (boot (options_of (Some 5%Z))) in
  messageHandlers (client w) = [7; 2] /\
  JSON_parse page (PString "hello") = None /\
  calls (after (dispatch page (SocketMessage 0 (PString "hello"))) w) =
    [ (7, RawData (PString "hello")) ] /\
  JSON_parse page (PString "true") = Some (JBool true) /\
  calls (after (dispatch page (SocketMessage 0 (PString "true"))) w) =
    [ (7, Data (JBool true)); (7, RawData (PString "true")) ].
Proof. vm_compute. repeat split; reflexivity. Qed.

(** The scenario of the specification at ceiling 2: two attempts are
    scheduled, and once they are used up a further connect and close
    schedule none. *)
Lemma reconnect_budget_witness :
  (no_open failing_thrice = true /\
   currentReconnectAttempts (client (boot (options_of (Some 2%Z)))) = 0%Z /\
   scheduled (exec page failing_thrice (boot (options_of (Some 2%Z)))) <=
     scheduled (boot (options_of (Some 2%Z))) +
     Z.to_nat (reconnectAttempts (client (boot (options_of (Some 2%Z)))))) /\
  (no_open [CallConnect; SocketCloses 3] = true /\
   (reconnectAttempts (client (exec page failing_thrice (boot (options_of (Some 2%Z)))))
    <= currentReconnectAttempts
         (client (exec page failing_thrice (boot (options_of (Some 2%Z))))))%Z /\
   scheduled (exec page [CallConnect; SocketCloses 3]
                (exec page failing_thrice (boot (options_of (Some 2%Z))))) =
   scheduled (exec page failing_thrice (boot (options_of (Some 2%Z))))).
Proof.
  split.
  - split; [reflexivity|]. split; [reflexivity|].
    apply (proj1 (reconnect_budget page (boot (options_of (Some 2%Z)))
                    failing_thrice eq_refl)).
    reflexivity.
  - split; [reflexivity|]. split; [vm_compute; discriminate|].
    apply (proj1 (proj2 (reconnect_budget page
                           (exec page failing_thrice (boot (options_of (Some 2%Z))))
                           [CallConnect; SocketCloses 3] eq_refl))).
    vm_compute. discriminate.
Defined.

Lemma handleMessage_parse_or_raw_witness :
  Forall (fun h => handler_throws page h (Data (JBool true)) = false)
    (messageHandlers (client open_page)) /\
  handleMessage page (PString "true") open_page =
  (with_calls (calls open_page ++
               ((fun h => (h, Data (JBool true))) <$> messageHandlers (client open_page)))
     open_page,
   Return tt).
Proof.
  split.
  - repeat constructor.
  - apply (handleMessage_parse_or_raw page open_page (PString "true")).
    repeat constructor.
Defined.

Lemma heartbeat_tick_and_stop_witness :
  can_close open_page 0 = true /\
  no_open (CallSend (PString "hello") :: aftermath) = true /\
  heartbeatTimer (client (after (dispatch page (SocketCloses 0)) open_page)) = None /\
  live_heartbeats (after (dispatch page (SocketCloses 0)) open_page) = [] /\
  heartbeatTimer
    (client (exec page (CallSend (PString "hello") :: aftermath)
               (after (dispatch page (SocketCloses 0)) open_page))) = None /\
  live_heartbeats
    (exec page (CallSend (PString "hello") :: aftermath)
       (after (dispatch page (SocketCloses 0)) open_page)) = [] /\
  exists k,
    sent <$> sockets
      (after (dispatch page (TimerFires 1))
         (exec page (CallSend (PString "hello") :: aftermath)
            (after (dispatch page (SocketCloses 0)) open_page))) =
    (sent <$> sockets
       (exec page (CallSend (PString "hello") :: aftermath)
          (after (dispatch page (SocketCloses 0)) open_page))) ++ replicate k [].
Proof.
  split; [reflexivity|]. split; [reflexivity|].
  exact (proj2 (heartbeat_tick_and_stop page (options_of (Some 5%Z))
                  [CallOnMessage 1; CallOnMessage 2; CallConnect; SocketOpens 0; TimerFires 1]
                  0 (CallSend (PString "hello") :: aftermath) 1 eq_refl eq_refl)).
Defined.

Lemma connect_supersedes_witness :
  ws (client (exec page [CallConnect] (boot (options_of (Some 5%Z))))) = Some 0 /\
  sockets (exec page [CallConnect] (boot (options_of (Some 5%Z)))) !! 0 =
    Some connected_WebSocket /\
  readyState connected_WebSocket <> OPEN /\
  outcome (connect page) (exec page [CallConnect] (boot (options_of (Some 5%Z)))) =
    Return tt /\
  sockets (after (connect page) (exec page [CallConnect] (boot (options_of (Some 5%Z))))) =
    sockets (exec page [CallConnect] (boot (options_of (Some 5%Z)))) ++ [connected_WebSocket] /\
  ws (client (after (connect page) (exec page [CallConnect] (boot (options_of (Some 5%Z)))))) =
    Some (length (sockets (exec page [CallConnect] (boot (options_of (Some 5%Z)))))) /\
  0 <> length (sockets (exec page [CallConnect] (boot (options_of (Some 5%Z))))) /\
  sockets (after (connect page) (exec page [CallConnect] (boot (options_of (Some 5%Z))))) !! 0 =
    Some connected_WebSocket /\
  bound connected_WebSocket = true.
Proof.
  split; [reflexivity|]. split; [reflexivity|]. split; [discriminate|].
  apply (connect_supersedes page (options_of (Some 5%Z)) [CallConnect] 0
           connected_WebSocket).
  - reflexivity.
  - reflexivity.
  - discriminate.
Defined.

(** * Further properties of the class *)

(** ** What an event delivers *)

Ltac leaf_calls :=
  let w := fresh "w" in let H := fresh "H" in
  intros w H; run_primitive; exact H.

Lemma reconnect_keeps_calls (l : list (Handler * Arg)) :
  preserves (fun w => calls w = l) reconnect.
Proof. unfold reconnect. pres ltac:(leaf_calls). Qed.

Lemma connect_keeps_calls (host : Host) (l : list (Handler * Arg)) :
  preserves (fun w => calls w = l) (connect host).
Proof.
  unfold connect. pres ltac:(first [apply reconnect_keeps_calls | leaf_calls]).
Qed.

Lemma heartbeatTick_keeps_calls (l : list (Handler * Arg)) :
  preserves (fun w => calls w = l) heartbeatTick.
Proof. unfold heartbeatTick, send. pres ltac:(leaf_calls). Qed.

Lemma quiet_event_keeps_calls (host : Host) (e : Event) (l : list (Handler * Arg)) :
  is_socket_event e = false ->
  preserves (fun w => calls w = l) (dispatch host e).
Proof.
  intros He.
  destruct e; try discriminate He; clear He;
    unfold dispatch, discard, send, close, onMessage, onOpen, onClose,
      onError, unsubscribe, getReadyState, stopHeartbeat, stopReconnect.
  all: pres ltac:(first [apply connect_keeps_calls
                        | apply heartbeatTick_keeps_calls | leaf_calls]).
Qed.

Lemma handleOpen_calls (host : Host) (w : World) :
  calls (after (handleOpen host) w) =
  calls w ++ deliver host NoArg (openHandlers (client w)).
Proof.
  unfold after. destruct (handleOpen_delivery host w) as (w1 & -> & <- & _).
  rewrite forEach_call. reflexivity.
Qed.

Lemma handleClose_calls (host : Host) (w : World) :
  calls (after (handleClose host) w) =
  calls w ++ deliver host NoArg (closeHandlers (client w)).
Proof.
  assert (exists w1,
    handleClose host w =
    (forEach (closeHandlers (client w)) (call host NoArg) ;;
     c <- this ;; if negb (isManualClose c) then reconnect else ret tt) w1 /\
    calls w1 = calls w) as (w1 & Heq & Hcalls).
  { unfold handleClose, stopHeartbeat, bind at 1 2 3 4, this at 1 2, console_put,
      clearInterval, clearTimer, assign, truthy, ret.
    cbn.
    destruct (heartbeatTimer (client w)) as [id|]; cbn;
      [destruct (id =? 0)%Z; cbn|]; eexists; split; reflexivity. }
  unfold after. rewrite Heq, <- Hcalls. unfold bind at 1. rewrite forEach_call.
  destruct (thrown host NoArg (closeHandlers (client w))); [|reflexivity].
  set (w2 := with_calls _ w1).
  change (calls (after (c <- this ;; if negb (isManualClose c) then reconnect else ret tt) w2)
          = calls w1 ++ deliver host NoArg (closeHandlers (client w))).
  apply (preserves_bind (fun w => calls w = calls w2) this
           (fun c => if negb (isManualClose c) then reconnect else ret tt));
    [apply preserves_this | | reflexivity].
  intros c. destruct (negb (isManualClose c));
    [apply reconnect_keeps_calls | apply preserves_ret].
Qed.

Lemma handleError_result (host : Host) (error : nat) (w : World) :
  handleError host error w =
  (with_calls (calls w ++ deliver host (ErrorEvent error) (errorHandlers (client w)))
     (with_console (console w ++ [ErrorSocket error]) w),
   thrown host (ErrorEvent error) (errorHandlers (client w))).
Proof.
  unfold handleError, bind, console_put, this. cbn. rewrite forEach_call.
  reflexivity.
Qed.

Lemma handleMessage_calls (host : Host) (data : Payload) (w : World) :
  calls (after (handleMessage host data) w) =
  calls w ++
  match JSON_parse host data with
  | Some v =>
      deliver host (Data v) (messageHandlers (client w)) ++
      match thrown host (Data v) (messageHandlers (client w)) with
      | Throw _ => deliver host (RawData data) (messageHandlers (client w))
      | Return _ => []
      end
  | None => deliver host (RawData data) (messageHandlers (client w))
  end.
Proof.
  unfold after, handleMessage, try_catch, bind, JSON_parse_or_throw, this.
  destruct (JSON_parse host data) as [v|]; cbn; rewrite forEach_call.
  - destruct (thrown host (Data v) (messageHandlers (client w))); cbn.
    + rewrite app_nil_r. reflexivity.
    + rewrite forEach_call. cbn. rewrite app_assoc. reflexivity.
  - reflexivity.
Qed.

Lemma socket_event_calls (s : nat) (enabled : ReadyState -> bool)
    (next : ReadyState -> ReadyState) (slot : WebSocket -> bool)
    (callback : M unit) (new : SocketClient -> list (Handler * Arg)) (w : World) :
  (forall w', calls (after callback w') = calls w' ++ new (client w')) ->
  calls (after (socket_event s enabled next slot callback) w) =
  calls w ++ (if fires w s enabled slot then new (client w) else []).
Proof.
  intros Hcb. unfold after, socket_event, fires.
  destruct (sockets w !! s) as [sk|]; [|cbn; rewrite app_nil_r; reflexivity].
  destruct (enabled (readyState sk)); [|cbn; rewrite app_nil_r; reflexivity].
  unfold bind, on_socket. cbn.
  destruct (slot sk); [|cbn; rewrite app_nil_r; reflexivity].
  apply (Hcb (with_sockets _ w)).
Qed.

Lemma dispatch_calls (host : Host) (e : Event) (w : World) :
  calls (after (dispatch host e) w) = calls w ++ deliveries host e w.
Proof.
  destruct (is_socket_event e) eqn:He.
  - destruct e; try discriminate He; cbn [dispatch deliveries].
    + apply (socket_event_calls s is_CONNECTING (fun _ => OPEN) onopen
               (handleOpen host)
               (fun c => deliver host NoArg (openHandlers c))).
      intros w'. apply handleOpen_calls.
    + apply (socket_event_calls s is_open (fun r => r) onmessage
               (handleMessage host data)
               (fun c => match JSON_parse host data with
                         | Some v =>
                             deliver host (Data v) (messageHandlers c) ++
                             match thrown host (Data v) (messageHandlers c) with
                             | Throw _ => deliver host (RawData data) (messageHandlers c)
                             | Return _ => []
                             end
                         | None => deliver host (RawData data) (messageHandlers c)
                         end)).
      intros w'. apply handleMessage_calls.
    + apply (socket_event_calls s not_CLOSED (fun _ => CLOSED) onclose
               (handleClose host)
               (fun c => deliver host NoArg (closeHandlers c))).
      intros w'. apply handleClose_calls.
    + apply (socket_event_calls s not_CLOSED (fun r => r) onerror
               (handleError host e)
               (fun c => deliver host (ErrorEvent e) (errorHandlers c))).
      intros w'. unfold after. rewrite handleError_result. reflexivity.
  - rewrite (quiet_event_keeps_calls host e (calls w) He w eq_refl).
    destruct e; try discriminate He; cbn; rewrite app_nil_r; reflexivity.
Qed.

(** X1.  Only the events of a socket call subscribers: whatever the
    application calls ([connect], [send], [close], the four [on...]
    methods, the closures they return, [getReadyState]) and whichever
    timers fire, in any order and from any state, no subscriber is
    called. *)
Theorem only_socket_events_call_subscribers (host : Host) (evs : list Event) (w : World) :
  forallb (fun e => negb (is_socket_event e)) evs = true ->
  calls (exec host evs w) = calls w.
Proof.
  revert w. induction evs as [|e rest IH]; intros w Hevs; simpl; [reflexivity|].
  simpl in Hevs. apply andb_prop in Hevs as [He Hrest].
  rewrite (IH _ Hrest).
  apply (quiet_event_keeps_calls host e (calls w)); [|reflexivity].
  destruct (is_socket_event e); [discriminate He | reflexivity].
Qed.

(** ** Sets of subscribers *)

Lemma called_prefix (host : Host) (a : Arg) (hs : list Handler) :
  exists n, called host a hs = take n hs.
Proof.
  unfold called. destruct (first_thrower host a hs) as [[i h]|].
  - exists (S i). reflexivity.
  - exists (length hs). rewrite take_ge by lia. reflexivity.
Qed.

Lemma deliver_members (host : Host) (a : Arg) (hs : list Handler) (x : Handler * Arg) :
  x ∈ deliver host a hs -> snd x = a /\ fst x ∈ hs.
Proof.
  unfold deliver. intros Hx. apply list_elem_of_fmap in Hx as (h & -> & Hh).
  split; [reflexivity|]. cbn.
  destruct (called_prefix host a hs) as [n Hn]. rewrite Hn in Hh.
  apply elem_of_take in Hh as (i & Hi & _).
  apply list_elem_of_lookup. exists i. exact Hi.
Qed.

Lemma deliveries_subscribed (host : Host) (e : Event) (w : World) (x : Handler * Arg) :
  x ∈ deliveries host e w -> fst x ∈ subscribed_for (snd x) (client w).
Proof.
  assert (forall a hs, x ∈ deliver host a hs ->
            hs = subscribed_for a (client w) \/
            (a = NoArg /\ (hs = openHandlers (client w) \/ hs = closeHandlers (client w))) ->
            fst x ∈ subscribed_for (snd x) (client w)) as Hd.
  { intros a hs Hx Hhs. apply deliver_members in Hx as [-> Hin].
    destruct Hhs as [->|[Ha [->| ->]]]; [exact Hin| |];
      rewrite Ha; cbn; apply elem_of_app; [left|right]; exact Hin. }
  destruct e; cbn; try (intros Hx; apply elem_of_nil in Hx; contradiction).
  - destruct (fires w s is_CONNECTING onopen);
      [|intros Hx; apply elem_of_nil in Hx; contradiction].
    intros Hx. eapply Hd; [exact Hx|]. right. split; [reflexivity|]. left. reflexivity.
  - destruct (fires w s is_open onmessage);
      [|intros Hx; apply elem_of_nil in Hx; contradiction].
    destruct (JSON_parse host data) as [v|].
    + intros Hx. apply elem_of_app in Hx as [Hx|Hx].
      * eapply Hd; [exact Hx|]. left. reflexivity.
      * destruct (thrown host (Data v) (messageHandlers (client w)));
          [apply elem_of_nil in Hx; contradiction|].
        eapply Hd; [exact Hx|]. left. reflexivity.
    + intros Hx. eapply Hd; [exact Hx|]. left. reflexivity.
  - destruct (fires w s not_CLOSED onclose);
      [|intros Hx; apply elem_of_nil in Hx; contradiction].
    intros Hx. eapply Hd; [exact Hx|]. right. split; [reflexivity|]. right. reflexivity.
  - destruct (fires w s not_CLOSED onerror);
      [|intros Hx; apply elem_of_nil in Hx; contradiction].
    intros Hx. eapply Hd; [exact Hx|]. left. reflexivity.
Qed.

Lemma same_channel_subscribed (a b : Arg) (c : SocketClient) :
  same_channel a b = true -> subscribed_for a c = subscribed_for b c.
Proof. destruct a, b; cbn; intros H; try discriminate H; reflexivity. Qed.

Ltac leaf_same :=
  let w := fresh "w" in let H := fresh "H" in
  intros w H; run_primitive; exact H.

Lemma reconnect_keeps_subscribed (a : Arg) (l : list Handler) :
  preserves (fun w => subscribed_for a (client w) = l) reconnect.
Proof. destruct a; unfold reconnect; pres ltac:(leaf_same). Qed.

Lemma connect_keeps_subscribed (host : Host) (a : Arg) (l : list Handler) :
  preserves (fun w => subscribed_for a (client w) = l) (connect host).
Proof.
  pose proof (reconnect_keeps_subscribed a l) as Hr.
  destruct a; unfold connect; pres ltac:(first [exact Hr | leaf_same]).
Qed.

Lemma heartbeatTick_keeps_subscribed (a : Arg) (l : list Handler) :
  preserves (fun w => subscribed_for a (client w) = l) heartbeatTick.
Proof. destruct a; unfold heartbeatTick, send; pres ltac:(leaf_same). Qed.

Lemma dispatch_keeps_subscribed (host : Host) (e : Event) (a : Arg) (l : list Handler) :
  match e with
  | CallOnMessage _ | CallOnOpen _ | CallOnClose _ | CallOnError _
  | CallUnsubscribe _ => False
  | _ => True
  end ->
  preserves (fun w => subscribed_for a (client w) = l) (dispatch host e).
Proof.
  intros He.
  pose proof (connect_keeps_subscribed host a l) as Hc.
  pose proof (heartbeatTick_keeps_subscribed a l) as Ht.
  destruct e; try contradiction; clear He;
    destruct a;
    unfold dispatch, discard, send, close, getReadyState, handleOpen,
      handleMessage, handleClose, handleError, startHeartbeat, stopHeartbeat,
      stopReconnect.
  all: pres ltac:(first [exact Hc | exact Ht | leaf_same]).
Qed.

Lemma elem_of_Set_add (h x : Handler) (l : list Handler) :
  x ∈ Set_add h l <-> x ∈ l \/ x = h.
Proof.
  unfold Set_add. destruct (bool_decide (h ∈ l)) eqn:Hin.
  - apply bool_decide_eq_true in Hin. split; [left; assumption|].
    intros [H| ->]; assumption.
  - rewrite elem_of_app, list_elem_of_singleton. reflexivity.
Qed.

Lemma elem_of_Set_delete (h x : Handler) (l : list Handler) :
  x ∈ Set_delete h l <-> x ∈ l /\ x <> h.
Proof. unfold Set_delete. rewrite list_elem_of_filter. tauto. Qed.

(** An event that does not register [h] for the kind of [a] leaves it
    unregistered. *)
Lemma dispatch_keeps_unsubscribed (host : Host) (e : Event) (a : Arg) (h : Handler)
    (w : World) :
  registers a h e = false ->
  h ∉ subscribed_for a (client w) ->
  h ∉ subscribed_for a (client (after (dispatch host e) w)).
Proof.
  intros Hreg Hout.
  destruct e;
    try (let Hk := fresh "Hk" in
         match goal with
         | |- context [dispatch host ?e] =>
             pose proof (dispatch_keeps_subscribed host e a _ I w eq_refl) as Hk
         end;
         cbv beta in Hk; rewrite Hk; exact Hout).
  - destruct a; cbn in *; try exact Hout.
    all: rewrite elem_of_Set_add; intros [Hin| ->]; [contradiction|];
      rewrite Nat.eqb_refl in Hreg; discriminate Hreg.
  - destruct a; cbn in *; try exact Hout.
    rewrite elem_of_app, elem_of_Set_add. rewrite elem_of_app in Hout.
    intros [[Hin| ->]|Hin]; [tauto| |tauto].
    rewrite Nat.eqb_refl in Hreg; discriminate Hreg.
  - destruct a; cbn in *; try exact Hout.
    rewrite elem_of_app, elem_of_Set_add. rewrite elem_of_app in Hout.
    intros [Hin|[Hin| ->]]; [tauto|tauto|].
    rewrite Nat.eqb_refl in Hreg; discriminate Hreg.
  - destruct a; cbn in *; try exact Hout.
    rewrite elem_of_Set_add; intros [Hin| ->]; [contradiction|].
    rewrite Nat.eqb_refl in Hreg; discriminate Hreg.
  - destruct sub, a; cbn in *; try exact Hout;
      rewrite ?elem_of_app, ?elem_of_Set_delete in *; tauto.
Qed.

Lemma dispatch_keeps_times_called (host : Host) (e : Event) (a : Arg) (h : Handler)
    (w : World) :
  h ∉ subscribed_for a (client w) ->
  times_called h a (after (dispatch host e) w) = times_called h a w.
Proof.
  intros Hout. unfold times_called. rewrite dispatch_calls, List.filter_app, length_app.
  assert (List.filter (is_call_to h a) (deliveries host e w) = []) as ->; [|cbn; lia].
  assert (Forall (fun x => is_call_to h a x = false) (deliveries host e w)) as Hnone.
  { rewrite Forall_forall. intros x Hx.
    destruct (is_call_to h a x) eqn:Hc; [|reflexivity]. exfalso.
    unfold is_call_to in Hc. apply andb_prop in Hc as [Hh Ha].
    apply Nat.eqb_eq in Hh.
    apply deliveries_subscribed in Hx.
    rewrite (same_channel_subscribed _ _ _ Ha), Hh in Hx. contradiction. }
  induction Hnone as [|x l Hx _ IH]; [reflexivity|]. cbn. rewrite Hx. exact IH.
Qed.

(** X3.  A function that is in no set of the kind of an argument is
    never called with an argument of that kind, by any event, until an
    [on...] call registers it for that kind again. *)
Theorem never_called_unless_subscribed (host : Host) (w : World)
    (evs : list Event) (h : Handler) (a : Arg) :
  h ∉ subscribed_for a (client w) ->
  forallb (fun e => negb (registers a h e)) evs = true ->
  times_called h a (exec host evs w) = times_called h a w /\
  h ∉ subscribed_for a (client (exec host evs w)).
Proof.
  revert w. induction evs as [|e rest IH]; intros w Hout Hevs; cbn.
  - split; [reflexivity | exact Hout].
  - cbn in Hevs. apply andb_prop in Hevs as [He Hrest].
    apply negb_true_iff in He.
    rewrite <- (dispatch_keeps_times_called host e a h w Hout).
    apply IH; [|exact Hrest].
    apply dispatch_keeps_unsubscribed; assumption.
Qed.

Lemma Set_delete_add (h : Handler) (l : list Handler) :
  Set_delete h (Set_add h l) = Set_delete h l.
Proof.
  unfold Set_add. destruct (bool_decide (h ∈ l)); [reflexivity|].
  unfold Set_delete. rewrite filter_app.
  rewrite (filter_cons_False _ h []) by (intros Hne; apply Hne; reflexivity).
  rewrite filter_nil, app_nil_r. reflexivity.
Qed.

Lemma Set_delete_absent (h : Handler) (l : list Handler) :
  h ∉ l -> Set_delete h l = l.
Proof.
  intros Hout. unfold Set_delete. induction l as [|x l IH]; [reflexivity|].
  apply not_elem_of_cons in Hout as [Hne Hout].
  rewrite filter_cons_True by congruence. rewrite (IH Hout). reflexivity.
Qed.

Lemma Set_delete_twice (h : Handler) (l : list Handler) :
  Set_delete h (Set_delete h l) = Set_delete h l.
Proof.
  apply Set_delete_absent. rewrite elem_of_Set_delete. tauto.
Qed.

(** X4.  Registering a function and calling the closure that was
    returned: the function is no longer in the set and the other
    members are kept in their order; if the function was not registered
    before, the client is exactly as it was; if it was, the one call
    removes it although it was registered twice.  Calling the closure
    once more changes nothing and reports that nothing was deleted. *)
Theorem subscription_round_trip (w : World) (sub : Subscription) :
  let h := sub_handler sub in
  let w2 := after (unsubscribe sub) (after (register sub) w) in
  outcome (register sub) w = Return sub /\
  sub_set sub (client w2) = Set_delete h (sub_set sub (client w)) /\
  (h ∉ sub_set sub (client w) -> w2 = w) /\
  unsubscribe sub w2 = (w2, Return false).
Proof.
  destruct w as [[s u p hi ri ra cur ht rt mc mh oh ch eh] socks tms nid ops con cls].
  destruct sub as [h|h|h|h].
  all: cbv [after outcome unsubscribe register onMessage onOpen onClose onError
            bind this assign ret sub_handler sub_set fst snd client with_client
            set_messageHandlers set_openHandlers set_closeHandlers set_errorHandlers
            messageHandlers openHandlers closeHandlers errorHandlers].
  all: rewrite !Set_delete_add, !Set_delete_twice.
  all: split; [reflexivity|]; split; [reflexivity|]; split.
  all: try (intros Hout; rewrite (Set_delete_absent _ _ Hout); reflexivity).
  all: f_equal; f_equal; apply bool_decide_eq_false;
       rewrite elem_of_Set_delete; tauto.
Qed.

(** ** What never throws *)

Lemma returns_bind {A B} (m : M A) (k : A -> M B) :
  returns m -> (forall a, returns (k a)) -> returns (bind m k).
Proof.
  intros Hm Hk w. destruct (Hm w) as [a Ha].
  unfold outcome, bind in *. destruct (m w) as [w' r]. cbn in Ha. subst r.
  apply Hk.
Qed.

Lemma returns_try_catch {A} (body : M A) (handler : Exn -> M A) :
  (forall e, returns (handler e)) -> returns (try_catch body handler).
Proof.
  intros Hh w. unfold outcome, try_catch.
  destruct (body w) as [w' [a|e]]; [exists a; reflexivity | apply Hh].
Qed.

Lemma send_returns (data : Payload) : returns (send data).
Proof. intros w. exists tt. unfold outcome. rewrite send_result. reflexivity. Qed.

(** Decomposes a statement; a primitive that cannot throw returns by
    computation. *)
Ltac rets :=
  repeat (intros;
    lazymatch goal with
    | |- returns (bind _ _) => apply returns_bind
    | |- returns (try_catch _ _) => apply returns_try_catch
    | |- returns (send _) => apply send_returns
    | |- returns (match ?x with _ => _ end) => destruct x
    | |- returns _ =>
        let w := fresh "w" in intros w; eexists; reflexivity
    end).

Lemma reconnect_returns : returns reconnect.
Proof. unfold reconnect. rets. Qed.

Lemma connect_returns (host : Host) : returns (connect host).
Proof. unfold connect, reconnect. rets. Qed.

Lemma heartbeatTick_returns : returns heartbeatTick.
Proof. unfold heartbeatTick. rets. Qed.

Lemma timer_event_returns (host : Host) (id : Z) : returns (timer_event host id).
Proof.
  intros w. unfold outcome, timer_event.
  destruct (find _ (timers w)) as [t|]; [|exists tt; reflexivity].
  apply (returns_bind (if timerRepeats t then ret tt else spend id)
           (fun _ => match timerKind t with
                     | HeartbeatTick => heartbeatTick
                     | ReconnectRetry => reconnectRetry host
                     end)).
  - destruct (timerRepeats t); intros w'; eexists; reflexivity.
  - intros _. destruct (timerKind t);
      [apply heartbeatTick_returns | apply connect_returns].
Qed.

Lemma returns_safe (host : Host) {A} (m : M A) :
  returns m -> throws_only_subscribers host m.
Proof. intros Hm w. destruct (Hm w) as [a ->]. exact I. Qed.

Lemma safe_bind (host : Host) {A B} (m : M A) (k : A -> M B) :
  throws_only_subscribers host m ->
  (forall a, throws_only_subscribers host (k a)) ->
  throws_only_subscribers host (bind m k).
Proof.
  intros Hm Hk w. specialize (Hm w). unfold outcome, bind in *.
  destruct (m w) as [w' [a|ex]]; cbn in *; [apply Hk | exact Hm].
Qed.

Lemma safe_try_catch (host : Host) {A} (body : M A) (handler : Exn -> M A) :
  (forall e, throws_only_subscribers host (handler e)) ->
  throws_only_subscribers host (try_catch body handler).
Proof.
  intros Hh w. unfold outcome, try_catch.
  destruct (body w) as [w' [a|e]]; [exact I | apply Hh].
Qed.

Lemma safe_call (host : Host) (a : Arg) (h : Handler) :
  throws_only_subscribers host (call host a h).
Proof.
  intros w. unfold outcome, call.
  destruct (handler_throws host h a) eqn:Hh; cbn; [|exact I].
  exists h, a. split; [reflexivity | exact Hh].
Qed.

Lemma safe_forEach (host : Host) (a : Arg) (hs : list Handler) :
  throws_only_subscribers host (forEach hs (call host a)).
Proof.
  induction hs as [|h rest IH]; cbn.
  - apply returns_safe. intros w. eexists; reflexivity.
  - apply safe_bind; [apply safe_call | intros _; exact IH].
Qed.

Ltac safes host :=
  repeat (intros;
    lazymatch goal with
    | |- throws_only_subscribers _ (bind _ _) => apply safe_bind
    | |- throws_only_subscribers _ (try_catch _ _) => apply safe_try_catch
    | |- throws_only_subscribers _ (forEach _ _) => apply safe_forEach
    | |- throws_only_subscribers _ (match ?x with _ => _ end) => destruct x
    | |- throws_only_subscribers _ reconnect =>
        apply returns_safe, reconnect_returns
    | |- throws_only_subscribers _ _ =>
        apply returns_safe; let w := fresh "w" in intros w; eexists; reflexivity
    end).

Lemma safe_socket_event (host : Host) (s : nat) (enabled : ReadyState -> bool)
    (next : ReadyState -> ReadyState) (slot : WebSocket -> bool) (callback : M unit) :
  throws_only_subscribers host callback ->
  throws_only_subscribers host (socket_event s enabled next slot callback).
Proof.
  intros Hc w. unfold outcome, socket_event.
  destruct (sockets w !! s) as [sk|]; [|exact I].
  destruct (enabled (readyState sk)); [|exact I].
  unfold bind, on_socket. cbn. destruct (slot sk); [apply Hc | exact I].
Qed.

(** X5.  No exception leaves a public method or a timer callback, in
    any state: [connect] catches what the constructor throws, [send]
    and the heartbeat write to a socket only when it is OPEN.  Only the
    four socket callbacks can throw, and then what a subscriber
    threw. *)
Theorem only_socket_callbacks_throw (host : Host) (e : Event) (w : World) :
  match outcome (dispatch host e) w with
  | Return _ => True
  | Throw ex => is_socket_event e = true /\ subscriber_exception host ex
  end.
Proof.
  destruct (is_socket_event e) eqn:He.
  - assert (throws_only_subscribers host (dispatch host e)) as Hs.
    { destruct e; try discriminate He; clear He; cbn [dispatch];
        apply safe_socket_event;
        unfold handleOpen, handleMessage, handleClose, handleError,
          startHeartbeat, stopHeartbeat, JSON_parse_or_throw;
        safes host. }
    specialize (Hs w). destruct (outcome (dispatch host e) w); [exact I|].
    split; [reflexivity | exact Hs].
  - assert (returns (dispatch host e)) as Hr.
    { destruct e; try discriminate He; clear He;
        unfold dispatch, discard, close, onMessage, onOpen, onClose, onError,
          unsubscribe, getReadyState, stopHeartbeat, stopReconnect, WebSocket_close;
        first [apply connect_returns | apply timer_event_returns | rets]. }
    destruct (Hr w) as [a ->]. exact I.
Qed.

(** ** [connect], [close] and the error event *)

Lemma with_console_same (w : World) : with_console (console w) w = w.
Proof. destruct w; reflexivity. Qed.

(** X6.  However often [connect()] is called while [this.ws] is OPEN,
    the transport is not replaced and nothing changes but the console,
    which gets one warning per call. *)
Theorem connect_while_open_changes_nothing (host : Host) (w : World) (s n : nat) :
  transport_open w = Some s ->
  exec host (replicate n CallConnect) w =
  with_console (console w ++ replicate n WarnAlreadyConnected) w.
Proof.
  revert w. induction n as [|n IH]; intros w Hopen; cbn.
  - rewrite app_nil_r, with_console_same. reflexivity.
  - unfold after. rewrite (connect_already_open host w s Hopen). cbn.
    rewrite IH by exact Hopen. cbn. rewrite <- app_assoc. reflexivity.
Qed.

Lemma alter_same {A} (f : A -> A) (i : nat) (l : list A) (x : A) :
  l !! i = Some x -> f x = x -> alter f i l = l.
Proof.
  revert i. induction l as [|y l IH]; intros [|i] Hi Hx; cbn in *;
    try discriminate Hi; f_equal.
  - injection Hi as ->. exact Hx.
  - apply IH; assumption.
Qed.

Lemma set_readyState_same (sk : WebSocket) : set_readyState (readyState sk) sk = sk.
Proof. destruct sk; reflexivity. Qed.

(** X7.  An error event calls the error-subscribers and prints the
    event, and that is all: it does not close or replace the transport,
    does not run the reconnect procedure and touches no timer and no
    field of the client. *)
Theorem error_event_only_notifies (host : Host) (s err : nat) (w : World) :
  let w' := after (dispatch host (SocketError s err)) w in
  client w' = client w /\
  sockets w' = sockets w /\
  timers w' = timers w /\
  nextTimerId w' = nextTimerId w /\
  timerOps w' = timerOps w.
Proof.
  cbn. unfold after, socket_event.
  destruct (sockets w !! s) as [sk|] eqn:Hsk; [|repeat split; reflexivity].
  destruct (not_CLOSED (readyState sk)); [|repeat split; reflexivity].
  unfold bind, on_socket. cbn.
  rewrite (alter_same _ _ _ _ Hsk (set_readyState_same sk)).
  destruct (onerror sk); [|repeat split; reflexivity].
  rewrite handleError_result. repeat split; reflexivity.
Qed.

(** X8.  [close()] twice in a row is [close()] once: the second call
    returns, changes no field, clears no timer, closes no socket, prints
    nothing and calls no subscriber. *)
Theorem close_twice (w : World) :
  close (after close w) = (after close w, Return tt).
Proof.
  destruct w as [[s u p hi ri ra cur ht rt mc mh oh ch eh] socks tms nid ops con cls].
  unfold after, close, stopHeartbeat, stopReconnect, WebSocket_close, bind, this,
    assign, on_socket, clearInterval, clearTimeout, clearTimer, truthy, ret.
  cbn.
  destruct ht as [i|]; [destruct (i =? 0)%Z eqn:Hi|];
    (destruct rt as [j|]; [destruct (j =? 0)%Z eqn:Hj|]);
    destruct s as [s|];
    repeat (progress (cbn; rewrite ?Hi, ?Hj));
    reflexivity.
Qed.

Ltac leaf_handle :=
  let w := fresh "w" in let H1 := fresh "H" in let H2 := fresh "H" in
  intros w [H1 H2]; unfold reconnect_handle_set in *; run_primitive;
  (split; [lia|]); first [exact H2 | discriminate].

Lemma reconnect_handle (host : Host) : preserves reconnect_handle_set reconnect.
Proof.
  intros w [H1 H2].
  unfold after, reconnect, bind, this, assign, console_put, window_setTimeout,
    reconnect_handle_set.
  cbn. destruct (_ <=? _)%Z; cbn; split; try assumption; try lia.
  intros id Hid. injection Hid as <-. exact H1.
Qed.

Lemma connect_handle (host : Host) : preserves reconnect_handle_set (connect host).
Proof.
  unfold connect. pres ltac:(first [apply (reconnect_handle host) | leaf_handle]).
Qed.

Lemma heartbeatTick_handle : preserves reconnect_handle_set heartbeatTick.
Proof. unfold heartbeatTick, send. pres ltac:(leaf_handle). Qed.

Lemma dispatch_handle (host : Host) (e : Event) :
  preserves reconnect_handle_set (dispatch host e).
Proof.
  destruct e; unfold dispatch, discard, send, close, onMessage, onOpen, onClose,
    onError, unsubscribe, getReadyState, handleOpen, handleMessage,
    handleClose, handleError, startHeartbeat, stopHeartbeat, stopReconnect.
  all: pres ltac:(first [apply (reconnect_handle host) | apply connect_handle
                        | apply heartbeatTick_handle | leaf_handle]).
Qed.

Lemma reachable_handle (host : Host) (options : SocketOptions) (evs : list Event) :
  reconnect_handle_set (exec host evs (boot options)).
Proof.
  assert (reconnect_handle_set (boot options)) as H0.
  { split; [reflexivity | discriminate]. }
  revert H0. generalize (boot options).
  induction evs as [|e rest IH]; intros w H; cbn; [exact H|].
  apply IH, dispatch_handle, H.
Qed.

Lemma not_in_drop_timer (id : Z) (l : list Timer) :
  id ∉ timerId <$> drop_timer id l.
Proof.
  intros Hin. apply list_elem_of_fmap in Hin as (t & -> & Ht).
  apply list_elem_of_filter in Ht as [Hne _]. apply Hne. reflexivity.
Qed.

(** X9.  [close()] on any page reached from a new client: the client
    holds no transport, [getReadyState()] answers CLOSED, the manual
    flag is set, both handles are null, no heartbeat timer is live and
    the reconnect timer the client held is not live either; the socket
    it held, if CONNECTING or OPEN, is now CLOSING; and [close()] itself
    prints nothing and calls no subscriber. *)
Theorem close_tears_down (host : Host) (options : SocketOptions) (evs : list Event) :
  let w := exec host evs (boot options) in
  let w' := after close w in
  ws (client w') = None /\
  outcome getReadyState w' = Return (readyState_code CLOSED) /\
  isManualClose (client w') = true /\
  heartbeatTimer (client w') = None /\
  reconnectTimer (client w') = None /\
  live_heartbeats w' = [] /\
  match reconnectTimer (client w) with
  | Some id => id ∉ timerId <$> timers w'
  | None => True
  end /\
  sockets w' =
    match ws (client w) with
    | Some s => alter closing s (sockets w)
    | None => sockets w
    end /\
  console w' = console w /\
  calls w' = calls w.
Proof.
  intros w w'. subst w'.
  pose proof (reachable_wf host options evs) as Hwf.
  pose proof (reachable_handle host options evs) as [_ Hrt].
  fold w in Hwf, Hrt. clearbody w.
  pose proof (wf_handle host w Hwf) as Hht.
  pose proof (wf_heartbeat host w Hwf) as Hhb. clear Hwf.
  destruct w as [[s u p hi ri ra cur ht rt mc mh oh ch eh] socks tms nid ops con cls].
  cbn in Hht, Hrt, Hhb.
  assert (Forall (fun t => is_heartbeat t = false)
            match ht with Some i => drop_timer i tms | None => tms end) as Hnone.
  { rewrite Forall_forall in *. destruct ht as [i|]; intros t Ht.
    - apply list_elem_of_filter in Ht as [Hne Ht].
      destruct (is_heartbeat t) eqn:Hk; [|reflexivity].
      specialize (Hhb t Ht Hk). congruence.
    - destruct (is_heartbeat t) eqn:Hk; [|reflexivity].
      specialize (Hhb t Ht Hk). discriminate Hhb. }
  unfold after, outcome, close, getReadyState, ws_readyState, stopHeartbeat,
    stopReconnect, WebSocket_close, bind, this, assign, on_socket, clearInterval,
    clearTimeout, clearTimer, truthy, ret, live_heartbeats.
  destruct ht as [i|];
    [assert ((i =? 0)%Z = false) as Hi by (specialize (Hht i eq_refl); lia)|];
    (destruct rt as [j|];
      [assert ((j =? 0)%Z = false) as Hj by (specialize (Hrt j eq_refl); lia)|]);
    destruct s as [s|];
    repeat (progress (cbn; rewrite ?Hi, ?Hj));
    repeat split;
    try apply not_in_drop_timer;
    apply no_heartbeat_filter;
    first [exact Hnone | apply Forall_drop_timer; exact Hnone].
Qed.

(** ** The configuration, the counter and the timers *)

Ltac leaf_config :=
  let w := fresh "w" in let H := fresh "H" in
  intros w H; unfold same_config in *; run_primitive; exact H.

Lemma reconnect_config (c0 : SocketClient) : preserves (same_config c0) reconnect.
Proof. unfold reconnect. pres ltac:(leaf_config). Qed.

Lemma connect_config (host : Host) (c0 : SocketClient) :
  preserves (same_config c0) (connect host).
Proof.
  unfold connect. pres ltac:(first [apply reconnect_config | leaf_config]).
Qed.

Lemma heartbeatTick_config (c0 : SocketClient) :
  preserves (same_config c0) heartbeatTick.
Proof. unfold heartbeatTick, send. pres ltac:(leaf_config). Qed.

Lemma dispatch_config (host : Host) (c0 : SocketClient) (e : Event) :
  preserves (same_config c0) (dispatch host e).
Proof.
  destruct e; unfold dispatch, discard, send, close, onMessage, onOpen, onClose,
    onError, unsubscribe, getReadyState, handleOpen, handleMessage,
    handleClose, handleError, startHeartbeat, stopHeartbeat, stopReconnect.
  all: pres ltac:(first [apply reconnect_config | apply connect_config
                        | apply heartbeatTick_config | leaf_config]).
Qed.

Lemma exec_config (host : Host) (c0 : SocketClient) (evs : list Event) (w : World) :
  same_config c0 w -> same_config c0 (exec host evs w).
Proof.
  revert w. induction evs as [|e rest IH]; intros w H; cbn; [exact H|].
  apply IH, dispatch_config, H.
Qed.

(** X10.  The endpoint, the sub-protocols, the two intervals and the
    ceiling of a client never change, whatever is called and whatever
    the sockets and timers do. *)
Theorem config_never_changes (host : Host) (w : World) (evs : list Event) :
  let w' := exec host evs w in
  url (client w') = url (client w) /\
  protocols (client w') = protocols (client w) /\
  heartbeatInterval (client w') = heartbeatInterval (client w) /\
  reconnectInterval (client w') = reconnectInterval (client w) /\
  reconnectAttempts (client w') = reconnectAttempts (client w).
Proof.
  apply (exec_config host (client w) evs w). repeat split; reflexivity.
Qed.

Ltac leaf_range :=
  let w := fresh "w" in let H := fresh "H" in
  intros w H; unfold counter_in_range in *; run_primitive;
  first [exact H | lia].

Lemma reconnect_range : preserves counter_in_range reconnect.
Proof.
  intros w H.
  unfold after, reconnect, bind, this, assign, console_put, window_setTimeout,
    counter_in_range in *.
  cbn. destruct (_ <=? _)%Z eqn:Hfull; cbn; [exact H|].
  apply Z.leb_gt in Hfull. lia.
Qed.

Lemma connect_range (host : Host) : preserves counter_in_range (connect host).
Proof.
  unfold connect. pres ltac:(first [apply reconnect_range | leaf_range]).
Qed.

Lemma heartbeatTick_range : preserves counter_in_range heartbeatTick.
Proof. unfold heartbeatTick, send. pres ltac:(leaf_range). Qed.

Lemma dispatch_range (host : Host) (e : Event) :
  preserves counter_in_range (dispatch host e).
Proof.
  destruct e; unfold dispatch, discard, send, close, onMessage, onOpen, onClose,
    onError, unsubscribe, getReadyState, handleOpen, handleMessage,
    handleClose, handleError, startHeartbeat, stopHeartbeat, stopReconnect.
  all: pres ltac:(first [apply reconnect_range | apply connect_range
                        | apply heartbeatTick_range | leaf_range]).
Qed.

(** X11.  On every page reached from a new client the attempt counter
    is at least 0 and at most the ceiling (at most 0 when the ceiling is
    negative): the counter never runs past the ceiling, on any path. *)
Theorem attempt_counter_in_range (host : Host) (options : SocketOptions)
    (evs : list Event) :
  let w := exec host evs (boot options) in
  (0 <= currentReconnectAttempts (client w)
     <= Z.max 0 (reconnectAttempts (client w)))%Z.
Proof.
  cbn zeta.
  assert (counter_in_range (boot options)) as H0.
  { unfold counter_in_range. cbn. lia. }
  revert H0. generalize (boot options).
  induction evs as [|e rest IH]; intros w H; cbn; [exact H|].
  apply IH, dispatch_range, H.
Qed.

Ltac leaf_shaped :=
  let w := fresh "w" in let H := fresh "H" in
  intros w H; unfold timers_shaped in *; run_primitive;
  first [exact H | apply Forall_drop_timer; exact H].

Lemma reconnect_shaped : preserves timers_shaped reconnect.
Proof.
  intros w H.
  unfold after, reconnect, bind, this, assign, console_put, window_setTimeout,
    timers_shaped in *.
  cbn. destruct (_ <=? _)%Z; cbn; [exact H|].
  apply Forall_app. split; [exact H|]. repeat constructor.
Qed.

Lemma stopHeartbeat_shaped : preserves timers_shaped stopHeartbeat.
Proof. unfold stopHeartbeat. pres ltac:(leaf_shaped). Qed.

Lemma startHeartbeat_shaped : preserves timers_shaped startHeartbeat.
Proof.
  unfold startHeartbeat. apply preserves_bind; [apply stopHeartbeat_shaped|].
  intros _. apply preserves_bind_this. intros w H.
  unfold after, bind, window_setInterval, assign, timers_shaped in *. cbn.
  apply Forall_app. split; [exact H|]. repeat constructor.
Qed.

Lemma connect_shaped (host : Host) : preserves timers_shaped (connect host).
Proof.
  unfold connect. pres ltac:(first [apply reconnect_shaped | leaf_shaped]).
Qed.

Lemma heartbeatTick_shaped : preserves timers_shaped heartbeatTick.
Proof. unfold heartbeatTick, send. pres ltac:(leaf_shaped). Qed.

Lemma dispatch_shaped (host : Host) (e : Event) :
  preserves timers_shaped (dispatch host e).
Proof.
  destruct e; unfold dispatch, discard, send, close, onMessage, onOpen, onClose,
    onError, unsubscribe, getReadyState, handleOpen, handleMessage,
    handleClose, handleError, stopReconnect.
  all: pres ltac:(first [apply reconnect_shaped | apply connect_shaped
                        | apply startHeartbeat_shaped | apply stopHeartbeat_shaped
                        | apply heartbeatTick_shaped | leaf_shaped]).
Qed.

Lemma reachable_shaped (host : Host) (options : SocketOptions) (evs : list Event) :
  timers_shaped (exec host evs (boot options)).
Proof.
  assert (timers_shaped (boot options)) as H0 by constructor.
  revert H0. generalize (boot options).
  induction evs as [|e rest IH]; intros w H; cbn; [exact H|].
  apply IH, dispatch_shaped, H.
Qed.

(** X12.  On every page reached from a new client at most one heartbeat
    timer is live; it is the one [heartbeatTimer] holds, and it repeats
    at the interval the client was constructed with.  Every other live
    timer is a reconnect timer that fires once, after the reconnect
    interval the client was constructed with, however many attempts
    came before. *)
Theorem timers_as_configured (host : Host) (options : SocketOptions)
    (evs : list Event) :
  let w := exec host evs (boot options) in
  let c0 := new_SocketClient options in
  length (live_heartbeats w) <= 1 /\
  Forall (fun t =>
            if is_heartbeat t
            then heartbeatTimer (client w) = Some (timerId t) /\
                 timerRepeats t = true /\
                 timerDelay t = heartbeatInterval c0
            else timerKind t = ReconnectRetry /\
                 timerRepeats t = false /\
                 timerDelay t = reconnectInterval c0)
         (timers w).
Proof.
  intros w c0.
  pose proof (reachable_wf host options evs) as Hwf. fold w in Hwf.
  pose proof (reachable_shaped host options evs) as Hsh. fold w in Hsh.
  pose proof (exec_config host c0 evs (boot options)) as Hcfg. fold w in Hcfg.
  destruct Hcfg as (_ & _ & Hhi & Hri & _); [repeat split; reflexivity|].
  split; [exact (one_live_heartbeat host w Hwf)|].
  pose proof (wf_heartbeat host w Hwf) as Hhb.
  unfold timers_shaped in Hsh. rewrite Forall_forall in *.
  intros t Ht. specialize (Hsh t Ht). specialize (Hhb t Ht).
  unfold timer_shaped, is_heartbeat in *. rewrite Hhi, Hri in Hsh.
  destruct (timerKind t); [|tauto].
  destruct Hsh as [Hrep Hdelay]. repeat split; auto.
Qed.

(** ** An endpoint the constructor rejects *)

Ltac leaf_none :=
  let w := fresh "w" in let H1 := fresh "H" in let H2 := fresh "H" in
  intros w [H1 H2]; unfold no_transport in *; run_primitive;
  rewrite ?H1 in *; cbn in *;
  first [split; [reflexivity | assumption] | split; assumption
        | split; reflexivity | discriminate].

Lemma reconnect_none : preserves no_transport reconnect.
Proof. unfold reconnect. pres ltac:(leaf_none). Qed.

Lemma heartbeatTick_none : preserves no_transport heartbeatTick.
Proof. unfold heartbeatTick, send. pres ltac:(leaf_none). Qed.

Section Rejected.

Variable host : Host.
Variable c0 : SocketClient.
Hypothesis rejected : WebSocket_accepts host (url c0) (protocols c0) = false.

Lemma connect_stranded : preserves (stranded c0) (connect host).
Proof.
  intros w [[Hs Hws] Hcfg]. unfold after.
  assert (transport_open w = None) as Hopen
    by (unfold transport_open; rewrite Hws; reflexivity).
  assert (WebSocket_accepts host (url (client w)) (protocols (client w)) = false) as Ha.
  { destruct Hcfg as (-> & -> & _). exact rejected. }
  rewrite (connect_rejected host w Hopen Ha).
  apply (preserves_and no_transport (same_config c0) reconnect
           reconnect_none (reconnect_config c0)).
  split; [split; assumption | exact Hcfg].
Qed.

Lemma dispatch_stranded (e : Event) : preserves (stranded c0) (dispatch host e).
Proof.
  destruct (match e with CallConnect | TimerFires _ => true | _ => false end) eqn:He.
  - destruct e; try discriminate He; cbn [dispatch]; [apply connect_stranded|].
    apply preserves_timer_event; [| |apply connect_stranded];
      (apply preserves_and; [|first [apply heartbeatTick_config | leaf_config]]);
      first [apply heartbeatTick_none | leaf_none].
  - apply preserves_and; [|apply dispatch_config].
    destruct e; try discriminate He; clear He;
      unfold dispatch, discard, send, close, onMessage, onOpen, onClose,
        onError, unsubscribe, getReadyState, handleOpen, handleMessage,
        handleClose, handleError, startHeartbeat, stopHeartbeat, stopReconnect.
    all: pres ltac:(first [apply reconnect_none | leaf_none]).
Qed.

Lemma exec_stranded (evs : list Event) (w : World) :
  stranded c0 w -> stranded c0 (exec host evs w).
Proof.
  revert w. induction evs as [|e rest IH]; intros w H; cbn; [exact H|].
  apply IH, dispatch_stranded, H.
Qed.

(** With no socket, an open event is not an event. *)
Lemma dispatch_stranded_budget (N : Z) (n k : nat) (e : Event) (w : World) :
  stranded c0 w -> within_budget N n k w ->
  within_budget N n k (after (dispatch host e) w).
Proof.
  intros [[Hs _] _] Hb. destruct (is_SocketOpens e) eqn:He.
  - destruct e; try discriminate He. cbn. unfold after, socket_event.
    rewrite Hs. exact Hb.
  - apply dispatch_within_budget; assumption.
Qed.

Lemma exec_stranded_budget (N : Z) (n k : nat) (evs : list Event) (w : World) :
  stranded c0 w -> within_budget N n k w ->
  within_budget N n k (exec host evs w).
Proof.
  revert w. induction evs as [|e rest IH]; intros w Hs Hb; cbn; [exact Hb|].
  apply IH; [apply dispatch_stranded, Hs | apply dispatch_stranded_budget; assumption].
Qed.

End Rejected.

(** X13.  When the [WebSocket] constructor rejects the endpoint the
    client was given, the client never holds a socket, whatever is
    called and whichever timers fire, and over its whole life it
    schedules at most as many reconnect attempts as its ceiling. *)
Theorem rejected_endpoint_gives_up (host : Host) (options : SocketOptions)
    (evs : list Event) :
  WebSocket_accepts host (opt_url options) (opt_protocols options) = false ->
  let w := exec host evs (boot options) in
  sockets w = [] /\
  ws (client w) = None /\
  scheduled w <= Z.to_nat (reconnectAttempts (client w)).
Proof.
  intros Hrej w.
  assert (no_transport (boot options) /\ same_config (new_SocketClient options) (boot options))
    as H0 by (repeat split; reflexivity).
  pose proof (exec_stranded host (new_SocketClient options) Hrej evs _ H0)
    as [[Hs Hws] _]. fold w in Hs, Hws.
  pose proof (exec_stranded_budget host (new_SocketClient options) Hrej
                (reconnectAttempts (new_SocketClient options)) 0
                (Z.to_nat (reconnectAttempts (new_SocketClient options)))
                evs (boot options) H0) as (HN & _ & Hk).
  { repeat split; [lia|]. cbn. lia. }
  fold w in HN, Hk. rewrite HN. split; [exact Hs|]. split; [exact Hws|]. lia.
Qed.

(** ** After a manual close *)

Section Accepted.

Variable host : Host.
Variable c0 : SocketClient.
Variable n : nat.
Hypothesis accepted : WebSocket_accepts host (url c0) (protocols c0) = true.

Ltac leaf_parked :=
  let w := fresh "w" in
  let H1 := fresh "H" in let H2 := fresh "H" in let H3 := fresh "H" in
  intros w [[H1 H2] H3];
  unfold parked, closed_by_hand, scheduled, same_config in *; run_primitive;
  rewrite ?List.filter_app; cbn; rewrite ?app_nil_r;
  (split; [split; first [assumption | reflexivity] | assumption]).

Lemma connect_parked : preserves (parked c0 n) (connect host).
Proof.
  intros w [[Hm Hn] Hcfg]. unfold after.
  destruct (transport_open w) as [s|] eqn:Hopen.
  - rewrite (connect_already_open host w s Hopen).
    split; [split|]; assumption.
  - assert (WebSocket_accepts host (url (client w)) (protocols (client w)) = true) as Ha.
    { destruct Hcfg as (-> & -> & _). exact accepted. }
    rewrite (connect_constructs host w Hopen Ha).
    split; [split|]; assumption.
Qed.

Lemma heartbeatTick_parked : preserves (parked c0 n) heartbeatTick.
Proof. unfold heartbeatTick, send. pres ltac:(leaf_parked). Qed.

Lemma handleClose_parked : preserves (parked c0 n) (handleClose host).
Proof.
  apply preserves_and; [apply handleClose_closed_by_hand|].
  unfold handleClose, stopHeartbeat.
  pres ltac:(first [apply reconnect_config | leaf_config]).
Qed.

Lemma dispatch_parked (e : Event) : preserves (parked c0 n) (dispatch host e).
Proof.
  destruct e; unfold dispatch, discard, send, close, onMessage, onOpen, onClose,
    onError, unsubscribe, getReadyState, handleOpen, handleMessage,
    handleError, startHeartbeat, stopHeartbeat, stopReconnect.
  all: pres ltac:(first [apply connect_parked | apply handleClose_parked
                        | apply heartbeatTick_parked | leaf_parked]).
Qed.

Lemma exec_parked (evs : list Event) (w : World) :
  parked c0 n w -> parked c0 n (exec host evs w).
Proof.
  revert w. induction evs as [|e rest IH]; intros w H; cbn; [exact H|].
  apply IH, dispatch_parked, H.
Qed.

End Accepted.

(** X14.  After [close()], a client whose endpoint the constructor
    accepts never schedules a reconnect again and stays marked as closed
    by hand, whatever is called, whatever the sockets do and whichever
    timers fire. *)
Theorem manual_close_is_final (host : Host) (w : World) (evs : list Event) :
  WebSocket_accepts host (url (client w)) (protocols (client w)) = true ->
  let w1 := after close w in
  scheduled (exec host evs w1) = scheduled w1 /\
  isManualClose (client (exec host evs w1)) = true.
Proof.
  intros Ha w1.
  assert (same_config (client w) w1) as Hcfg.
  { apply (dispatch_config host (client w) CallClose w). repeat split; reflexivity. }
  pose proof (exec_parked host (client w) (scheduled w1) Ha evs w1) as [[Hm Hn] _].
  { split; [split; [apply close_sets_manual | reflexivity] | exact Hcfg]. }
  split; assumption.
Qed.

(** ** Frames *)

Lemma call_log (host : Host) (e : Event) (l : list (list Payload)) :
  is_socket_event e = false ->
  (forall data, e <> CallSend data) ->
  (forall id, e <> TimerFires id) ->
  preserves (log_extends l) (dispatch host e).
Proof.
  intros He Hsend Htimer.
  destruct e; try discriminate He;
    try (exfalso; eapply Hsend; reflexivity);
    try (exfalso; eapply Htimer; reflexivity);
    unfold dispatch, discard, close, onMessage, onOpen, onClose,
      onError, getReadyState, stopHeartbeat, stopReconnect.
  all: pres ltac:(first [apply connect_log | leaf_log]).
Qed.

(** X15.  What the sockets are given outside the events of a socket, in
    every state: [send(data)] appends [data] to the frames of [this.ws]
    when it is OPEN; a live heartbeat timer that fires appends the 15
    characters of [{ type: 'ping' }] serialized, under the same
    condition; every other call of the application and every other
    timer leaves the frames of every socket as they were.  A socket the
    event constructs has no frame. *)
Theorem frames_written (host : Host) (e : Event) (w : World) :
  is_socket_event e = false ->
  exists k,
    sent <$> sockets (after (dispatch host e) w) =
    match
      match e with
      | CallSend data => Some data
      | TimerFires id =>
          if heartbeat_fires w id
          then Some (PString (string_of_list_ascii (ascii_of_nat <$> [123; 34; 116; 121; 112; 101; 34; 58; 34; 112; 105; 110; 103; 34; 125])))
          else None
      | _ => None
      end, transport_open w
    with
    | Some data, Some s =>
        alter (fun frames => frames ++ [data]) s (sent <$> sockets w)
    | _, _ => sent <$> sockets w
    end ++ replicate k [].
Proof.
  intros He.
  assert (forall e', e' = e ->
            (forall data, e <> CallSend data) -> (forall id, e <> TimerFires id) ->
            exists k, sent <$> sockets (after (dispatch host e) w) =
                      (sent <$> sockets w) ++ replicate k []) as Hother.
  { intros e' _ Hsend Htimer.
    exact (call_log host e (sent <$> sockets w) He Hsend Htimer w (log_extends_refl w)). }
  destruct e; try discriminate He;
    try (destruct (Hother _ eq_refl ltac:(intros ?; discriminate)
                     ltac:(intros ?; discriminate)) as [k Hk];
         exists k; rewrite Hk; destruct (transport_open w); reflexivity).
  - exists 0. cbn [replicate]. rewrite app_nil_r. cbn [dispatch].
    rewrite send_log. destruct (transport_open w); reflexivity.
  - destruct (timer_event_log host id w) as [k Hk]. exists k.
    cbn [dispatch]. rewrite Hk.
    destruct (heartbeat_fires w id); destruct (transport_open w); reflexivity.
Qed.

(** ** The further properties on concrete pages *)

Lemma never_called_unless_subscribed_witness :
  (1 ∉ subscribed_for (RawData (PString "hello"))
         (client (exec page [CallUnsubscribe (MessageSub 1)] open_page))) /\
  forallb (fun e => negb (registers (RawData (PString "hello")) 1 e))
    [SocketMessage 0 (PString "hello"); CallOnOpen 1; SocketMessage 0 (PString "true")]
  = true /\
  times_called 1 (RawData (PString "hello"))
    (exec page [SocketMessage 0 (PString "hello"); CallOnOpen 1;
                SocketMessage 0 (PString "true")]
       (exec page [CallUnsubscribe (MessageSub 1)] open_page)) =
  times_called 1 (RawData (PString "hello"))
    (exec page [CallUnsubscribe (MessageSub 1)] open_page) /\
  1 ∉ subscribed_for (RawData (PString "hello"))
        (client (exec page [SocketMessage 0 (PString "hello"); CallOnOpen 1;
                            SocketMessage 0 (PString "true")]
                   (exec page [CallUnsubscribe (MessageSub 1)] open_page))).
Proof.
  assert (1 ∉ subscribed_for (RawData (PString "hello"))
                (client (exec page [CallUnsubscribe (MessageSub 1)] open_page))) as Hout.
  { intros Hin. apply elem_of_cons in Hin as [Hin|Hin]; [discriminate Hin|].
    apply elem_of_nil in Hin. exact Hin. }
  split; [exact Hout|]. split; [reflexivity|].
  exact (never_called_unless_subscribed page
           (exec page [CallUnsubscribe (MessageSub 1)] open_page)
           [SocketMessage 0 (PString "hello"); CallOnOpen 1;
            SocketMessage 0 (PString "true")]
           1 (RawData (PString "hello")) Hout eq_refl).
Defined.

Lemma subscription_round_trip_witness :
  (5 ∉ sub_set (MessageSub 5) (client open_page)) /\
  after (unsubscribe (MessageSub 5)) (after (register (MessageSub 5)) open_page) =
  open_page.
Proof.
  assert (5 ∉ sub_set (MessageSub 5) (client open_page)) as Hout.
  { intros Hin. apply elem_of_cons in Hin as [Hin|Hin]; [discriminate Hin|].
    apply elem_of_cons in Hin as [Hin|Hin]; [discriminate Hin|].
    apply elem_of_nil in Hin. exact Hin. }
  split; [exact Hout|].
  exact (proj1 (proj2 (proj2 (subscription_round_trip open_page (MessageSub 5)))) Hout).
Defined.

Lemma connect_while_open_changes_nothing_witness :
  transport_open open_page = Some 0 /\
  exec page (replicate 3 CallConnect) open_page =
  with_console (console open_page ++ replicate 3 WarnAlreadyConnected) open_page.
Proof.
  split; [reflexivity|].
  apply (connect_while_open_changes_nothing page open_page 0 3). reflexivity.
Defined.

Lemma rejected_endpoint_gives_up_witness :
  WebSocket_accepts blocked (opt_url (options_of (Some 2%Z)))
    (opt_protocols (options_of (Some 2%Z))) = false /\
  sockets (exec blocked [CallConnect; TimerFires 1; TimerFires 2; CallConnect]
             (boot (options_of (Some 2%Z)))) = [] /\
  ws (client (exec blocked [CallConnect; TimerFires 1; TimerFires 2; CallConnect]
                (boot (options_of (Some 2%Z))))) = None /\
  scheduled (exec blocked [CallConnect; TimerFires 1; TimerFires 2; CallConnect]
               (boot (options_of (Some 2%Z)))) <=
  Z.to_nat (reconnectAttempts
              (client (exec blocked [CallConnect; TimerFires 1; TimerFires 2; CallConnect]
                         (boot (options_of (Some 2%Z)))))).
Proof.
  split; [reflexivity|].
  apply (rejected_endpoint_gives_up blocked (options_of (Some 2%Z))
           [CallConnect; TimerFires 1; TimerFires 2; CallConnect]).
  reflexivity.
Defined.

Lemma manual_close_is_final_witness :
  WebSocket_accepts page (url (client open_page)) (protocols (client open_page)) = true /\
  scheduled (exec page [SocketCloses 0; CallConnect; SocketCloses 1]
               (after close open_page)) =
  scheduled (after close open_page) /\
  isManualClose (client (exec page [SocketCloses 0; CallConnect; SocketCloses 1]
                           (after close open_page))) = true.
Proof.
  split; [reflexivity|].
  apply (manual_close_is_final page open_page [SocketCloses 0; CallConnect; SocketCloses 1]).
  reflexivity.
Defined.

Lemma only_socket_events_call_subscribers_witness :
  forallb (fun e => negb (is_socket_event e))
    [CallOnClose 3; CallSend (PString "hello"); TimerFires 1; CallClose; CallConnect] = true /\
  calls (exec page [CallOnClose 3; CallSend (PString "hello"); TimerFires 1; CallClose; CallConnect]
           open_page) = calls open_page.
Proof.
  split; [reflexivity|].
  exact (only_socket_events_call_subscribers page
           [CallOnClose 3; CallSend (PString "hello"); TimerFires 1; CallClose; CallConnect]
           open_page eq_refl).
Defined.

Lemma frames_written_witness :
  is_socket_event (CallSend (PString "hello")) = false /\
  exists k,
    sent <$> sockets (after (dispatch page (CallSend (PString "hello"))) open_page) =
    alter (fun frames => frames ++ [PString "hello"]) 0 (sent <$> sockets open_page)
    ++ replicate k [].
Proof.
  split; [reflexivity|].
  exact (frames_written page (CallSend (PString "hello")) open_page eq_refl).
Defined.
